(** * Sentiment-specific word embeddings: the sampling, scoring and loss core

    A shallow embedding of [sentiwords/embeddings/sswe.py]:
    the [InputGenerator] class (trigram extraction and negative sampling),
    [model_fn] with its [shared_network] (the weight-shared scorer and the
    joint hinge loss), the dataset pipeline of [input_fn] and the
    vocabulary selection of [main].

    External collaborators (the tokenizer, [lookup_ids], the vocabulary
    loaders, Python's [int] and [random.randint], TensorFlow's arithmetic)
    are taken as parameters or modelled by their documented contract. *)

From stdpp Require Import base option list strings gmap.
From Stdlib Require Import ZArith Lia Ascii.
From Stdlib Require QArith Qcanon SpecFloat.

Local Open Scope Z_scope.

(** ** Python values, exceptions and control *)

Module Py.

(** The exceptions the modelled code can raise. *)
Inductive exn : Type :=
| ValueError
| IndexError
| AttributeError
| StopIteration
| InvalidArgumentError
| UnknownError.

(** A computation that returns or raises. *)
Inductive result (A : Type) : Type :=
| Ok (a : A)
| Raise (e : exn).
Arguments Ok {A} a.
Arguments Raise {A} e.

Definition rbind {A B : Type} (m : result A) (k : A -> result B) : result B :=
  match m with
  | Ok a => k a
  | Raise e => Raise e
  end.

(** [l[i]] for a non-negative index: [IndexError] out of range. *)
Definition getitem {A : Type} (l : list A) (i : nat) : result A :=
  match nth_error l i with
  | Some a => Ok a
  | None => Raise IndexError
  end.

(** [l.index(x)]: position of the first occurrence, [ValueError] if absent. *)
Fixpoint index_from (x : string) (l : list string) (i : nat) : result nat :=
  match l with
  | [] => Raise ValueError
  | y :: l' => if String.eqb y x then Ok i else index_from x l' (S i)
  end.

Definition index (l : list string) (x : string) : result nat :=
  index_from x l 0.

(** [l[a:b]] for [0 <= a <= b]. *)
Definition slice {A : Type} (l : list A) (a b : nat) : list A :=
  firstn (b - a) (skipn a l).

(** [l[::k]] for [k >= 1]: the elements at positions 0, k, 2k, ...
    [every skip k l] drops [skip] elements and then keeps one in [k]. *)
Fixpoint every {A : Type} (skip k : nat) (l : list A) : list A :=
  match l with
  | [] => []
  | x :: l' =>
      match skip with
      | O => x :: every (k - 1) k l'
      | S s => every s k l'
      end
  end.

(** [l[::k]]: a step of zero is a [ValueError]. *)
Definition stride {A : Type} (l : list A) (k : nat) : result (list A) :=
  match k with
  | O => Raise ValueError
  | S _ => Ok (every 0 k l)
  end.

(** [sep.join(parts)]. *)
Fixpoint join (sep : string) (parts : list string) : string :=
  match parts with
  | [] => EmptyString
  | [p] => p
  | p :: ps => String.app p (String.app sep (join sep ps))
  end.

(** [nltk.ngrams(seq, n)] for [n >= 1]: every window of [n] consecutive
    items, in order ([len(seq) - n + 1] of them, none when [seq] is
    shorter than [n]). *)
Fixpoint ngrams {A : Type} (seq : list A) (n : nat) : list (list A) :=
  match seq with
  | [] => []
  | x :: seq' =>
      if (n <=? length seq)%nat then firstn n seq :: ngrams seq' n
      else []
  end.

End Py.

(** ** The random number generator

    [random.randint(a, b)] returns an integer [N] with [a <= N <= b] and
    raises [ValueError] on an empty range.  The generator's state is the
    list of the values it will hand out next; a computation that asks for
    more values than the list holds has not returned yet ([Starved]). *)

Module Rng.

Import Py.

Inductive outcome (A : Type) : Type :=
| Returned (a : A) (rest : list Z)
| Raised (e : exn)
| Starved.
Arguments Returned {A} a rest.
Arguments Raised {A} e.
Arguments Starved {A}.

Definition M (A : Type) : Type := list Z -> outcome A.

Definition ret {A : Type} (a : A) : M A := fun draws => Returned a draws.

Definition bind {A B : Type} (m : M A) (k : A -> M B) : M B :=
  fun draws =>
    match m draws with
    | Returned a rest => k a rest
    | Raised e => Raised e
    | Starved => Starved
    end.

Definition lift {A : Type} (r : result A) : M A :=
  fun draws =>
    match r with
    | Ok a => Returned a draws
    | Raise e => Raised e
    end.

Definition randint (a b : Z) : M Z :=
  fun draws =>
    if b <? a then Raised ValueError
    else match draws with
         | [] => Starved
         | d :: rest => Returned d rest
         end.

(** The draws a generator may hand out for [randint(a, b)]. *)
Definition in_range (a b : Z) (draws : list Z) : Prop :=
  Forall (fun d => a <= d <= b) draws.

End Rng.

Declare Scope rng_scope.
Delimit Scope rng_scope with rng.
Notation "'let!' x ':=' m 'in' k" := (Rng.bind m (fun x => k))
  (at level 10, x name, m at level 100, k at level 200) : rng_scope.

(** ** The input generator *)

Module Sampling.

Import Py Rng.

(** A yielded sample: [((original, corrupted), label)]. *)
Definition sample_t : Type := (list Z * list Z) * Z.

(** How a run of the generator ends: the reader is exhausted (with the
    generator state left), an exception propagates, or the negative
    sampler is still retrying. *)
Inductive ending : Type :=
| Finished (rest : list Z)
| Failed (e : exn)
| Retrying.

Section InputGenerator.

(** The collaborators of the class, which live outside this file:
    the vocabulary with its [len], [lookup_ids], the preprocessor's
    [tokenize_tweet], and Python's [int] on a string ([None] for a
    [ValueError]). *)
Variable Vocab : Type.
Variable len : Vocab -> nat.
Variable lookup_ids : Vocab -> list string -> list Z.
Variable tokenize_tweet : string -> list string.
Variable int : string -> option Z.

(** The attributes of an [InputGenerator] that the methods read. *)
Record InputGenerator : Type := {
  reader : list (list string);
  csv_columns : option (list string);
  ngram : nat;
  vocab : Vocab
}.

Definition set_csv_columns (v : option (list string))
    (self : InputGenerator) : InputGenerator :=
  {| reader := reader self;
     csv_columns := v;
     ngram := ngram self;
     vocab := vocab self |}.

(** [next(reader)]. *)
Definition next (r : list (list string))
    : result (list string * list (list string)) :=
  match r with
  | [] => Raise StopIteration
  | row :: r' => Ok (row, r')
  end.

(** [__init__]: with [csv_columns=None] the first row is read off the
    reader into [self.csv_columns]; further down the attribute is
    assigned the argument [csv_columns]. *)
Definition init (rows : list (list string)) (vocab0 : Vocab) (ngram0 : nat)
    (csv_columns0 : option (list string)) : result InputGenerator :=
  rbind
    (match csv_columns0 with
     | None => rbind (next rows) (fun '(header, rows') => Ok (rows', Some header))
     | Some _ => Ok (rows, None)
     end)
    (fun '(reader1, csv_columns1) =>
       let self1 := {| reader := reader1;
                       csv_columns := csv_columns1;
                       ngram := ngram0;
                       vocab := vocab0 |} in
       Ok (set_csv_columns csv_columns0 self1)).

(** The loop of [corrupted_sample]: [while random_word == sample[1]]
    draws again, with [randint 0 hi] written out so that the recursion
    is on the generator state. *)
Fixpoint redraw (hi : Z) (sample : list Z) (random_word : Z)
    (draws : list Z) : outcome Z :=
  match getitem sample 1 with
  | Raise e => Raised e
  | Ok middle =>
      if random_word =? middle then
        if hi <? 0 then Raised ValueError
        else match draws with
             | [] => Starved
             | d :: rest => redraw hi sample d rest
             end
      else Returned random_word draws
  end.

Definition corrupted_sample (self : InputGenerator) (sample : list Z)
    : M (list Z) :=
  (let! random_word := randint 0 (Z.of_nat (len (vocab self)) - 1) in
   let! random_word := redraw (Z.of_nat (len (vocab self)) - 1) sample random_word in
   let! first := lift (getitem sample 0) in
   let! last := lift (getitem sample 2) in
   ret [first; random_word; last])%rng.

(** [self.csv_columns.index(name)]: [None] has no [index]. *)
Definition column (self : InputGenerator) (name : string) : result nat :=
  match csv_columns self with
  | None => Raise AttributeError
  | Some cols => index cols name
  end.

(** The list of non-overlapping ngrams of one row. *)
Definition current_tweet (self : InputGenerator) (line : list string)
    : result (list string) :=
  rbind (column self "text") (fun i =>
  rbind (getitem line i) (fun text =>
  stride (map (join "_") (ngrams (tokenize_tweet text) (ngram self)))
         (ngram self))).

(** [1 if int(line[...]) > 0 else -1]. *)
Definition current_label (self : InputGenerator) (line : list string)
    : result Z :=
  rbind (column self "sentiment") (fun i =>
  rbind (getitem line i) (fun field =>
  match int field with
  | None => Raise ValueError
  | Some v => Ok (if 0 <? v then 1 else -1)
  end)).

(** [current_tweet[i*3:(i+1)*3] for i in range(0, int(len(current_tweet)/3))].
    The quotient is Python's float division followed by [int]; it is the
    integer quotient for every list length a machine can hold. *)
Definition chunks (tweet : list string) : list (list string) :=
  map (fun i => slice tweet (i * 3) ((i + 1) * 3))%nat
      (seq 0 (length tweet / 3)%nat).

(** The inner [for current_chunk in chunks] loop, with what it yields. *)
Fixpoint yield_chunks (self : InputGenerator) (label : Z)
    (cs : list (list string)) (draws : list Z) : list sample_t * ending :=
  match cs with
  | [] => ([], Finished draws)
  | current_chunk :: cs' =>
      let sample := lookup_ids (vocab self) current_chunk in
      match corrupted_sample self sample draws with
      | Returned corrupted rest =>
          let '(out, e) := yield_chunks self label cs' rest in
          (((sample, corrupted), label) :: out, e)
      | Raised e => ([], Failed e)
      | Starved => ([], Retrying)
      end
  end.

(** The body of [for line in self.reader] for one row. *)
Definition yield_record (self : InputGenerator) (line : list string)
    (draws : list Z) : list sample_t * ending :=
  match current_tweet self line with
  | Raise e => ([], Failed e)
  | Ok tweet =>
      match current_label self line with
      | Raise e => ([], Failed e)
      | Ok label => yield_chunks self label (chunks tweet) draws
      end
  end.

Fixpoint yield_rows (self : InputGenerator) (rows : list (list string))
    (draws : list Z) : list sample_t * ending :=
  match rows with
  | [] => ([], Finished draws)
  | line :: rows' =>
      match yield_record self line draws with
      | (out, Finished rest) =>
          let '(out', e) := yield_rows self rows' rest in
          (out ++ out', e)
      | (out, e) => (out, e)
      end
  end.

(** [generate_samples]: everything the generator yields when it is
    iterated to its end, and how it ends. *)
Definition generate_samples (self : InputGenerator) (draws : list Z)
    : list sample_t * ending :=
  yield_rows self (reader self) draws.

(** The original trigram of a yielded sample. *)
Definition original (s : sample_t) : list Z := fst (fst s).

(** *** Degree one: the units are the tokens *)

Lemma ngrams_one {A : Type} (l : list A) :
  ngrams l 1 = map (fun x => [x]) l.
Proof.
  induction l as [|x l IH]; [reflexivity|].
  simpl. rewrite IH. reflexivity.
Qed.

Lemma every_one {A : Type} (l : list A) : every 0 1 l = l.
Proof.
  induction l as [|x l IH]; [reflexivity|].
  simpl. rewrite IH. reflexivity.
Qed.

Lemma join_singletons (sep : string) (l : list string) :
  map (join sep) (map (fun x => [x]) l) = l.
Proof.
  induction l as [|x l IH]; [reflexivity|].
  simpl. rewrite IH. reflexivity.
Qed.

Lemma current_tweet_one (self : InputGenerator) (line : list string)
    (i : nat) (text : string) :
  ngram self = 1%nat ->
  column self "text" = Ok i ->
  getitem line i = Ok text ->
  current_tweet self line = Ok (tokenize_tweet text).
Proof.
  intros Hn Hc Hg. unfold current_tweet.
  rewrite Hc; simpl. rewrite Hg; simpl. rewrite Hn; simpl.
  rewrite ngrams_one, join_singletons, every_one. reflexivity.
Qed.

(** *** The groups of three *)

Lemma chunks_length (tweet : list string) :
  length (chunks tweet) = (length tweet / 3)%nat.
Proof.
  unfold chunks. rewrite length_map, length_seq. reflexivity.
Qed.

Lemma chunks_lookup (tweet : list string) (k : nat) :
  (k < length tweet / 3)%nat ->
  exists a b c,
    tweet !! (3 * k)%nat = Some a /\
    tweet !! (3 * k + 1)%nat = Some b /\
    tweet !! (3 * k + 2)%nat = Some c /\
    chunks tweet !! k = Some [a; b; c].
Proof.
  intros Hk.
  assert (Hlen : (3 * k + 2 < length tweet)%nat).
  { pose proof (Nat.div_mod_eq (length tweet) 3). lia. }
  destruct (lookup_lt_is_Some_2 tweet (3 * k)%nat ltac:(lia)) as [a Ha].
  destruct (lookup_lt_is_Some_2 tweet (3 * k + 1)%nat ltac:(lia)) as [b Hb].
  destruct (lookup_lt_is_Some_2 tweet (3 * k + 2)%nat ltac:(lia)) as [c Hc].
  exists a, b, c. repeat split; try assumption.
  unfold chunks. rewrite list_lookup_fmap, lookup_seq_lt by assumption.
  simpl. f_equal. unfold slice.
  replace ((k + 1) * 3 - k * 3)%nat with 3%nat by lia.
  replace (k * 3)%nat with (3 * k)%nat by lia.
  rewrite (drop_S _ _ _ Ha).
  replace (S (3 * k)) with (3 * k + 1)%nat by lia.
  rewrite (drop_S _ _ _ Hb).
  replace (S (3 * k + 1)) with (3 * k + 2)%nat by lia.
  rewrite (drop_S _ _ _ Hc). reflexivity.
Qed.

(** *** What the loops yield *)

Lemma yield_chunks_prefix (self : InputGenerator) (label : Z)
    (cs : list (list string)) :
  forall draws : list Z,
    let expected := map (lookup_ids (vocab self)) cs in
    map original (yield_chunks self label cs draws).1 `prefix_of` expected /\
    Forall (fun s => snd s = label) (yield_chunks self label cs draws).1 /\
    (forall rest, (yield_chunks self label cs draws).2 = Finished rest ->
                  map original (yield_chunks self label cs draws).1 = expected).
Proof.
  induction cs as [|c cs IH]; intros draws; simpl.
  - repeat split; [apply prefix_nil|constructor].
  - destruct (corrupted_sample self (lookup_ids (vocab self) c) draws)
      as [corrupted rest'| |]; simpl.
    + specialize (IH rest'). simpl in IH.
      destruct (yield_chunks self label cs rest') as [out e]. simpl in *.
      destruct IH as (Hp & Hl & Hf). repeat split.
      * apply prefix_cons. exact Hp.
      * constructor; [reflexivity|exact Hl].
      * intros rest He. unfold original at 1. simpl. f_equal. eauto.
    + repeat split; [apply prefix_nil|constructor|discriminate].
    + repeat split; [apply prefix_nil|constructor|discriminate].
Qed.

(** One draw that misses the middle id is enough for one trigram. *)
Lemma corrupted_sample_first_draw (self : InputGenerator) (t0 t1 t2 d : Z)
    (rest : list Z) :
  (1 <= len (vocab self))%nat ->
  d <> t1 ->
  corrupted_sample self [t0; t1; t2] (d :: rest) = Returned [t0; d; t2] rest.
Proof.
  intros Hn Hd. unfold corrupted_sample, bind, randint.
  destruct (Z.ltb_spec (Z.of_nat (len (vocab self)) - 1) 0); [lia|].
  destruct rest; simpl; destruct (Z.eqb_spec d t1); try contradiction; reflexivity.
Qed.

(** The k-th draw suits the k-th group: its ids are a trigram whose middle
    id the draw misses. *)
Definition suits (self : InputGenerator) (c : list string) (d : Z) : Prop :=
  exists t0 t1 t2, lookup_ids (vocab self) c = [t0; t1; t2] /\ d <> t1.

Lemma yield_chunks_finished (self : InputGenerator) (label : Z)
    (cs : list (list string)) (ds rest : list Z) :
  (1 <= len (vocab self))%nat ->
  Forall2 (suits self) cs ds ->
  exists out,
    yield_chunks self label cs (ds ++ rest) = (out, Finished rest) /\
    map original out = map (lookup_ids (vocab self)) cs.
Proof.
  intros Hn HF. induction HF as [|c d cs ds (t0 & t1 & t2 & Hl & Hd) _ IH].
  - exists []. split; reflexivity.
  - destruct IH as (out & Hy & Ho). simpl. rewrite Hl.
    rewrite corrupted_sample_first_draw by assumption.
    rewrite Hy. eexists. split; [reflexivity|]. simpl.
    unfold original at 1. simpl. rewrite Ho. reflexivity.
Qed.

(** Every yielded trigram is the ids of one group of one row. *)
Lemma yield_chunks_In (self : InputGenerator) (label : Z)
    (cs : list (list string)) :
  forall (draws : list Z) (s : sample_t),
    In s (yield_chunks self label cs draws).1 ->
    exists c, In c cs /\ original s = lookup_ids (vocab self) c /\ snd s = label.
Proof.
  induction cs as [|c cs IH]; intros draws s; simpl; [contradiction|].
  destruct (corrupted_sample self (lookup_ids (vocab self) c) draws)
    as [corrupted rest'| |]; simpl; try contradiction.
  specialize (IH rest' s).
  destruct (yield_chunks self label cs rest') as [out e]. simpl in *.
  intros [<-|Hin].
  - exists c. repeat split. left; reflexivity.
  - destruct (IH Hin) as (c' & Hc' & Ho). exists c'. split; [right|]; assumption.
Qed.

Lemma yield_rows_In (self : InputGenerator) (rows : list (list string)) :
  forall (draws : list Z) (s : sample_t),
    In s (yield_rows self rows draws).1 ->
    exists line draws', In line rows /\ In s (yield_record self line draws').1.
Proof.
  induction rows as [|line rows IH]; intros draws s; simpl; [contradiction|].
  destruct (yield_record self line draws) as [out e] eqn:Hrec.
  assert (Hhere : In s out -> exists line' draws',
             (line = line' \/ In line' rows) /\ In s (yield_record self line' draws').1).
  { intros Hin. exists line, draws. rewrite Hrec. split; [left; reflexivity|exact Hin]. }
  destruct e as [rest|e|]; simpl; try exact Hhere.
  specialize (IH rest s). destruct (yield_rows self rows rest) as [out' e']. simpl in *.
  intros Hin. apply in_app_or in Hin. destruct Hin as [Hin|Hin]; [auto|].
  destruct (IH Hin) as (line' & draws' & Hl & Hs).
  exists line', draws'. split; [right|]; assumption.
Qed.

(** *** What the retry loop returns *)

(** The loop draws with [randint 0 hi]. *)
Lemma redraw_unfold (hi : Z) (sample : list Z) (random_word : Z)
    (draws : list Z) :
  redraw hi sample random_word draws =
  match getitem sample 1 with
  | Raise e => Raised e
  | Ok middle =>
      if random_word =? middle
      then bind (randint 0 hi) (redraw hi sample) draws
      else Returned random_word draws
  end.
Proof.
  unfold bind, randint.
  destruct draws; simpl; destruct (getitem sample 1); try reflexivity;
    destruct (random_word =? a); try reflexivity;
    destruct (hi <? 0); reflexivity.
Qed.

Lemma redraw_outcome (hi t0 t1 t2 : Z) :
  0 <= hi ->
  forall (draws : list Z) (random_word : Z),
    match redraw hi [t0; t1; t2] random_word draws with
    | Returned w rest => w <> t1 /\ In w (random_word :: draws)
    | Raised _ => False
    | Starved => random_word = t1 /\ Forall (fun d => d = t1) draws
    end.
Proof.
  intros Hhi draws.
  induction draws as [|d draws IH]; intros rw; simpl.
  - destruct (Z.eqb_spec rw t1) as [->|Hne].
    + destruct (Z.ltb_spec hi 0); [lia|]. split; [reflexivity|constructor].
    + split; [assumption|left; reflexivity].
  - destruct (Z.eqb_spec rw t1) as [->|Hne].
    + destruct (Z.ltb_spec hi 0); [lia|].
      specialize (IH d).
      destruct (redraw hi [t0; t1; t2] d draws) as [w rest| |].
      * destruct IH as [Hw Hin]. split; [assumption|right; assumption].
      * assumption.
      * destruct IH as [-> Hall]. split; [reflexivity|constructor; auto].
    + split; [assumption|left; reflexivity].
Qed.

Lemma corrupted_sample_outcome (self : InputGenerator) (t0 t1 t2 : Z)
    (draws : list Z) :
  let n := Z.of_nat (len (vocab self)) in
  1 <= n ->
  in_range 0 (n - 1) draws ->
  match corrupted_sample self [t0; t1; t2] draws with
  | Returned c rest => exists w, c = [t0; w; t2] /\ 0 <= w < n /\ w <> t1
  | Raised _ => False
  | Starved => Forall (fun d => d = t1) draws
  end.
Proof.
  intros n Hn Hdraws. unfold corrupted_sample, bind, randint. fold n.
  destruct (Z.ltb_spec (n - 1) 0); [lia|].
  destruct draws as [|d draws]; [constructor|].
  pose proof (redraw_outcome (n - 1) t0 t1 t2 ltac:(lia) draws d) as Hr.
  destruct (redraw (n - 1) [t0; t1; t2] d draws) as [w rest| |]; simpl.
  - destruct Hr as [Hw Hin]. exists w. split; [reflexivity|]. split; [|assumption].
    unfold in_range in Hdraws. rewrite Forall_forall in Hdraws.
    apply list_elem_of_In, Hdraws in Hin. lia.
  - assumption.
  - destruct Hr as [-> Hall]. constructor; auto.
Qed.

(** With a vocabulary of one word whose id is the middle id, no draw ever
    ends the loop. *)
Lemma corrupted_sample_starved (self : InputGenerator) (t0 t2 : Z)
    (draws : list Z) :
  len (vocab self) = 1%nat ->
  in_range 0 0 draws ->
  corrupted_sample self [t0; 0; t2] draws = Starved.
Proof.
  intros Hlen Hdraws.
  pose proof (corrupted_sample_outcome self t0 0 t2 draws) as H.
  simpl in H. rewrite Hlen in H. specialize (H ltac:(lia) Hdraws).
  destruct (corrupted_sample self [t0; 0; t2] draws) as [c rest| |].
  - destruct H as (w & _ & Hw & Hne). lia.
  - contradiction.
  - reflexivity.
Qed.

(** With an empty vocabulary [randint(0, -1)] raises at once. *)
Lemma corrupted_sample_empty_vocabulary (self : InputGenerator)
    (sample draws : list Z) :
  len (vocab self) = 0%nat ->
  corrupted_sample self sample draws = Raised ValueError.
Proof.
  intros Hlen. unfold corrupted_sample, bind, randint. rewrite Hlen. reflexivity.
Qed.


(** C5 as the code has it: with an empty vocabulary the call fails at once
    with the [ValueError] of [randint] on an empty range; with a
    vocabulary of one word and that word's id in the middle, no error is
    reported and the loop never ends, whatever is drawn. *)
Theorem corrupted_sample_small_vocabulary (self : InputGenerator)
    (t0 t1 t2 : Z) (draws : list Z) :
  let n := len (vocab self) in
  (n <= 1)%nat ->
  (n = 1%nat -> t1 = 0) ->
  in_range 0 (Z.of_nat n - 1) draws ->
  corrupted_sample self [t0; t1; t2] draws =
    if (n =? 0)%nat then Raised ValueError else Starved.
Proof.
  intros n Hn Ht1 Hdraws.
  destruct (Nat.eqb_spec n 0) as [H0|H0].
  - apply corrupted_sample_empty_vocabulary. exact H0.
  - assert (H1 : n = 1%nat) by lia. rewrite (Ht1 H1).
    apply corrupted_sample_starved; [exact H1|]. rewrite H1 in Hdraws. exact Hdraws.
Qed.

Lemma yield_record_In (self : InputGenerator) (line : list string)
    (draws : list Z) (s : sample_t) :
  In s (yield_record self line draws).1 ->
  exists tweet c,
    current_tweet self line = Ok tweet /\ In c (chunks tweet) /\
    original s = lookup_ids (vocab self) c /\
    current_label self line = Ok (snd s).
Proof.
  unfold yield_record.
  destruct (current_tweet self line) as [tweet|e]; [|contradiction].
  destruct (current_label self line) as [label|e]; [|contradiction].
  intros Hin. apply yield_chunks_In in Hin. destruct Hin as (c & Hc & Ho & ->).
  exists tweet, c. repeat split; assumption.
Qed.

(** Reading a file is reading its parts one after the other, the
    generator state handed on. *)
Lemma yield_rows_app (self : InputGenerator) (pre post : list (list string)) :
  forall draws : list Z,
    yield_rows self (pre ++ post) draws =
    match yield_rows self pre draws with
    | (out, Finished rest) =>
        let '(out', e) := yield_rows self post rest in (out ++ out', e)
    | (out, e) => (out, e)
    end.
Proof.
  induction pre as [|line pre IH]; intros draws; simpl.
  - destruct (yield_rows self post draws). reflexivity.
  - destruct (yield_record self line draws) as [out [rest|e|]]; try reflexivity.
    rewrite IH.
    destruct (yield_rows self pre rest) as [out1 [rest1|e1|]]; try reflexivity.
    destruct (yield_rows self post rest1) as [out2 e2].
    rewrite app_assoc. reflexivity.
Qed.

(** What the generator yields once it has got through the rows [pre] and
    stands at [line]: the samples of [line], then those of the rows after
    it when [line] has been got through. *)
Lemma yield_rows_at (self : InputGenerator) (pre post : list (list string))
    (line : list string) (draws draws_line : list Z) (before : list sample_t) :
  yield_rows self pre draws = (before, Finished draws_line) ->
  yield_rows self (pre ++ line :: post) draws =
  match yield_record self line draws_line with
  | (from_line, Finished rest) =>
      (before ++ from_line ++ (yield_rows self post rest).1,
       (yield_rows self post rest).2)
  | (from_line, e) => (before ++ from_line ++ [], e)
  end.
Proof.
  intros Hpre. rewrite yield_rows_app, Hpre. simpl.
  destruct (yield_record self line draws_line) as [from_line [rest|e|]];
    rewrite ?app_nil_r; try reflexivity.
  destruct (yield_rows self post rest) as [after e]. reflexivity.
Qed.

(** C3: a record [line] of the file, read at degree one, whose text has
    [L] tokens and which the generator reaches (the rows before it have
    been got through, yielding [before]).  The groups of the record are
    the [L / 3] consecutive triples of its tokens, the remainder dropped.
    What [generate_samples] yields is [before], then the samples of the
    record, then those of the rows after it.  The originals of the
    record's samples are the ids of its groups, in order, up to where the
    run stops; they are all [L / 3] of them unless the run stops inside the
    record (an exception, or a sampler that keeps retrying), after which
    nothing more is yielded; they are all of them whenever the run reaches
    the end of the file, and whenever each draw misses the middle id of
    its trigram.  Every trigram yielded over the file is the ids of one
    group of one row. *)
Theorem generate_samples_trigrams (self : InputGenerator)
    (pre post : list (list string)) (line : list string)
    (i : nat) (text : string) (label : Z)
    (draws draws_line : list Z) (before : list sample_t) :
  ngram self = 1%nat ->
  reader self = pre ++ line :: post ->
  yield_rows self pre draws = (before, Finished draws_line) ->
  column self "text" = Ok i ->
  getitem line i = Ok text ->
  current_label self line = Ok label ->
  let tokens := tokenize_tweet text in
  let expected := map (lookup_ids (vocab self)) (chunks tokens) in
  length expected = (length tokens / 3)%nat /\
  (forall k, (k < length tokens / 3)%nat ->
     exists a b c,
       tokens !! (3 * k)%nat = Some a /\
       tokens !! (3 * k + 1)%nat = Some b /\
       tokens !! (3 * k + 2)%nat = Some c /\
       expected !! k = Some (lookup_ids (vocab self) [a; b; c])) /\
  (exists from_line after e,
     generate_samples self draws = (before ++ from_line ++ after, e) /\
     map original from_line `prefix_of` expected /\
     ((length from_line < length tokens / 3)%nat ->
      after = [] /\ forall rest, e <> Finished rest) /\
     (forall rest, e = Finished rest ->
        map original from_line = expected /\
        length from_line = (length tokens / 3)%nat)) /\
  (forall ds rest,
     (1 <= len (vocab self))%nat ->
     Forall2 (suits self) (chunks tokens) ds ->
     draws_line = ds ++ rest ->
     exists from_line,
       map original from_line = expected /\
       length from_line = (length tokens / 3)%nat /\
       generate_samples self draws =
         (before ++ from_line ++ (yield_rows self post rest).1,
          (yield_rows self post rest).2)) /\
  (forall s,
     In s (generate_samples self draws).1 ->
     exists line' tweet c,
       In line' (reader self) /\ current_tweet self line' = Ok tweet /\
       In c (chunks tweet) /\ original s = lookup_ids (vocab self) c).
Proof.
  intros Hn Hrd Hpre Hc Hg Hl tokens expected.
  pose proof (current_tweet_one self line i text Hn Hc Hg) as Htw.
  fold tokens in Htw.
  assert (Hlen : length expected = (length tokens / 3)%nat).
  { unfold expected. rewrite length_map. apply chunks_length. }
  assert (Hrun : generate_samples self draws =
            match yield_chunks self label (chunks tokens) draws_line with
            | (from_line, Finished rest) =>
                (before ++ from_line ++ (yield_rows self post rest).1,
                 (yield_rows self post rest).2)
            | (from_line, e) => (before ++ from_line ++ [], e)
            end).
  { unfold generate_samples. rewrite Hrd, (yield_rows_at _ _ _ _ _ _ _ Hpre).
    unfold yield_record. rewrite Htw, Hl. reflexivity. }
  split; [exact Hlen|]. split; [|split; [|split]].
  - intros k Hk. destruct (chunks_lookup tokens k Hk) as (a & b & c & Ha & Hb & Hc' & Hch).
    exists a, b, c. repeat split; try assumption.
    unfold expected. rewrite list_lookup_fmap, Hch. reflexivity.
  - destruct (yield_chunks_prefix self label (chunks tokens) draws_line)
      as (Hp & _ & Hf).
    fold expected in Hp, Hf.
    destruct (yield_chunks self label (chunks tokens) draws_line)
      as [from_line e0] eqn:Hy. simpl in Hp, Hf.
    assert (Hfull : forall rest, e0 = Finished rest ->
              map original from_line = expected /\
              length from_line = (length tokens / 3)%nat).
    { intros rest He. specialize (Hf rest He). split; [exact Hf|].
      rewrite <- Hlen, <- Hf, length_map. reflexivity. }
    destruct e0 as [rest0|e0|].
    + exists from_line, (yield_rows self post rest0).1, (yield_rows self post rest0).2.
      destruct (Hfull rest0 eq_refl) as [Ho Hl0].
      split; [exact Hrun|]. split; [exact Hp|]. split; [lia|].
      intros rest _. split; assumption.
    + exists from_line, [], (Failed e0).
      split; [exact Hrun|]. split; [exact Hp|]. split; [|discriminate].
      intros _. split; [reflexivity|discriminate].
    + exists from_line, [], Retrying.
      split; [exact Hrun|]. split; [exact Hp|]. split; [|discriminate].
      intros _. split; [reflexivity|discriminate].
  - intros ds rest Hv HF ->.
    destruct (yield_chunks_finished self label (chunks tokens) ds rest Hv HF)
      as (out & Hy & Ho).
    rewrite Hy in Hrun. exists out. split; [exact Ho|]. split; [|exact Hrun].
    rewrite <- Hlen. fold expected in Ho. rewrite <- Ho, length_map. reflexivity.
  - intros s Hin. unfold generate_samples in Hin.
    apply yield_rows_In in Hin. destruct Hin as (line' & draws' & Hl' & Hs).
    apply yield_record_In in Hs. destruct Hs as (tweet & c & Ht & Hc' & Ho & _).
    exists line', tweet, c. repeat split; assumption.
Qed.

Lemma current_label_Ok (self : InputGenerator) (line : list string) (l : Z) :
  current_label self line = Ok l ->
  exists i field v,
    column self "sentiment" = Ok i /\ getitem line i = Ok field /\
    int field = Some v /\ l = (if 0 <? v then 1 else -1).
Proof.
  unfold current_label.
  destruct (column self "sentiment") as [i|e] eqn:Hc; simpl; [|discriminate].
  destruct (getitem line i) as [field|e] eqn:Hg; simpl; [|discriminate].
  destruct (int field) as [v|] eqn:Hv; [|discriminate].
  intros [= <-]. exists i, field, v. repeat split; assumption.
Qed.


(** C10 as the code has it: built with [csv_columns=None], the generator
    needs a first row, which it consumes; its [csv_columns] is [None]
    all the same; iterating it raises [AttributeError] at the first row
    after the header, before anything is yielded; when no row follows
    the header it yields nothing and raises nothing. *)
Theorem init_without_columns (rows : list (list string)) (vocab0 : Vocab)
    (ngram0 : nat) :
  match init rows vocab0 ngram0 None with
  | Raise e => rows = [] /\ e = StopIteration
  | Ok self =>
      exists header rest,
        rows = header :: rest /\ reader self = rest /\
        csv_columns self = None /\
        forall draws,
          generate_samples self draws =
            match rest with
            | [] => ([], Finished draws)
            | _ :: _ => ([], Failed AttributeError)
            end
  end.
Proof.
  destruct rows as [|header rest]; simpl; [split; reflexivity|].
  exists header, rest. repeat split.
  intros draws. unfold generate_samples. simpl.
  destruct rest as [|line rest]; reflexivity.
Qed.

(** *** Further behaviour of the generator *)

(** The corrupted trigram of a yielded sample. *)
Definition corrupted (s : sample_t) : list Z := snd (fst s).

Lemma redraw_returned (hi : Z) (sample : list Z) :
  forall (draws : list Z) (random_word w : Z) (rest : list Z),
    redraw hi sample random_word draws = Returned w rest ->
    exists middle used,
      getitem sample 1 = Ok middle /\ w <> middle /\
      random_word :: draws = used ++ w :: rest /\
      Forall (fun d => d = middle) used.
Proof.
  induction draws as [|d draws IH]; intros rw w rest; simpl;
    destruct (getitem sample 1) as [middle|e]; try discriminate;
    destruct (Z.eqb_spec rw middle) as [->|Hne];
    try (destruct (hi <? 0); discriminate).
  - intros [= <- <-]. exists middle, []. repeat split; auto.
  - destruct (hi <? 0); [discriminate|]. intros Hr.
    destruct (IH _ _ _ Hr) as (middle' & used & Hm & Hw & Hu & Hall).
    assert (middle' = middle) as -> by congruence.
    exists middle, (middle :: used). repeat split; auto.
    simpl. rewrite Hu. reflexivity.
  - intros [= <- <-]. exists middle, []. repeat split; auto.
Qed.

(** Whatever list of ids the sample is, a call that returns has read its
    first three entries, returns exactly three ids, and has consumed the
    draws that hit the middle id and the one that missed it. *)
Lemma corrupted_sample_returned (self : InputGenerator) (sample c : list Z)
    (draws rest : list Z) :
  corrupted_sample self sample draws = Returned c rest ->
  exists t0 t1 t2 tail w used,
    sample = t0 :: t1 :: t2 :: tail /\ c = [t0; w; t2] /\ w <> t1 /\
    draws = used ++ w :: rest /\ Forall (fun d => d = t1) used.
Proof.
  unfold corrupted_sample, bind, randint, lift, ret.
  destruct (Z.of_nat (len (vocab self)) - 1 <? 0); [discriminate|].
  destruct draws as [|d draws]; [discriminate|].
  destruct (redraw (Z.of_nat (len (vocab self)) - 1) sample d draws)
    as [w rest'| |] eqn:Hr; try discriminate.
  apply redraw_returned in Hr.
  destruct Hr as (middle & used & Hm & Hw & Hu & Hall).
  destruct sample as [|t0 [|t1 [|t2 tail]]]; try discriminate.
  simpl. intros [= <- <-]. simpl in Hm. injection Hm as <-.
  exists t0, t1, t2, tail, w, used. repeat split; assumption.
Qed.

Lemma yield_chunks_draws (self : InputGenerator) (label : Z)
    (cs : list (list string)) :
  forall (draws : list Z),
    (forall s, In s (yield_chunks self label cs draws).1 ->
       exists t0 t1 t2 tail w,
         original s = t0 :: t1 :: t2 :: tail /\ corrupted s = [t0; w; t2] /\
         w <> t1 /\ In w draws) /\
    (forall rest, (yield_chunks self label cs draws).2 = Finished rest ->
       exists used,
         draws = used ++ rest /\
         (length (yield_chunks self label cs draws).1 <= length used)%nat /\
         length (yield_chunks self label cs draws).1 = length cs).
Proof.
  induction cs as [|c cs IH]; intros draws; simpl.
  - split; [contradiction|]. intros rest [= <-]. exists []. repeat split; auto.
  - destruct (corrupted_sample self (lookup_ids (vocab self) c) draws)
      as [cor rest'| |] eqn:Hc; simpl; try (split; [contradiction|discriminate]).
    apply corrupted_sample_returned in Hc.
    destruct Hc as (t0 & t1 & t2 & tail & w & used & Hs & -> & Hw & -> & _).
    specialize (IH rest').
    destruct (yield_chunks self label cs rest') as [out e]. simpl in *.
    destruct IH as [IHin IHfin]. split.
    + intros s [<-|Hin].
      * exists t0, t1, t2, tail, w. repeat split; auto.
        apply in_or_app. right. left. reflexivity.
      * destruct (IHin s Hin) as (a0 & a1 & a2 & atail & aw & Ho & Hcor & Hne & Hin').
        exists a0, a1, a2, atail, aw. repeat split; auto.
        apply in_or_app. right. right. exact Hin'.
    + intros rest He. destruct (IHfin rest He) as (used' & -> & Hlen & Hn).
      exists (used ++ w :: used'). split; [|split].
      * rewrite <- app_assoc. reflexivity.
      * rewrite length_app. simpl. lia.
      * rewrite Hn. reflexivity.
Qed.

Lemma yield_record_draws (self : InputGenerator) (line : list string)
    (draws : list Z) :
  (forall s, In s (yield_record self line draws).1 ->
     exists t0 t1 t2 tail w,
       original s = t0 :: t1 :: t2 :: tail /\ corrupted s = [t0; w; t2] /\
       w <> t1 /\ In w draws) /\
  (forall rest, (yield_record self line draws).2 = Finished rest ->
     exists used,
       draws = used ++ rest /\
       (length (yield_record self line draws).1 <= length used)%nat).
Proof.
  unfold yield_record.
  destruct (current_tweet self line) as [tweet|e].
  - destruct (current_label self line) as [label|e].
    + destruct (yield_chunks_draws self label (chunks tweet) draws) as [Hin Hfin].
      split; [exact Hin|]. intros rest He.
      destruct (Hfin rest He) as (used & Hd & Hl & _). exists used. auto.
    + split; [contradiction|discriminate].
  - split; [contradiction|discriminate].
Qed.

Lemma yield_rows_draws (self : InputGenerator) (rows : list (list string)) :
  forall draws : list Z,
    (forall s, In s (yield_rows self rows draws).1 ->
       exists t0 t1 t2 tail w,
         original s = t0 :: t1 :: t2 :: tail /\ corrupted s = [t0; w; t2] /\
         w <> t1 /\ In w draws) /\
    (forall rest, (yield_rows self rows draws).2 = Finished rest ->
       exists used,
         draws = used ++ rest /\
         (length (yield_rows self rows draws).1 <= length used)%nat).
Proof.
  induction rows as [|line rows IH]; intros draws; simpl.
  - split; [contradiction|]. intros rest [= <-]. exists []. split; auto.
  - destruct (yield_record_draws self line draws) as [Hin Hfin].
    destruct (yield_record self line draws) as [out [rest1|e|]]; simpl in *;
      try (split; [exact Hin|discriminate]).
    destruct (Hfin rest1 eq_refl) as (used1 & -> & Hl1).
    specialize (IH rest1).
    destruct (yield_rows self rows rest1) as [out' e']. simpl in *.
    destruct IH as [IHin IHfin]. split.
    + intros s Hs. apply in_app_or in Hs. destruct Hs as [Hs|Hs]; [auto|].
      destruct (IHin s Hs) as (a0 & a1 & a2 & atail & aw & Ho & Hcor & Hne & Hin').
      exists a0, a1, a2, atail, aw. repeat split; auto.
      apply in_or_app. right. exact Hin'.
    + intros rest He. destruct (IHfin rest He) as (used' & -> & Hl').
      exists (used1 ++ used'). split; [rewrite app_assoc; reflexivity|].
      rewrite !length_app. lia.
Qed.


(** A run that reaches the end of the reader has read the draws in
    order, left the others as they were, and used at least one draw for
    each sample it yielded. *)
Theorem generate_samples_draws (self : InputGenerator) (draws rest : list Z) :
  (generate_samples self draws).2 = Finished rest ->
  exists used,
    draws = used ++ rest /\
    (length (generate_samples self draws).1 <= length used)%nat.
Proof.
  intros He. unfold generate_samples in *.
  destruct (yield_rows_draws self (reader self) draws) as [_ Hf].
  exact (Hf rest He).
Qed.

(** A row with fewer than three units yields nothing, draws nothing and
    raises nothing (its sentiment field must still parse): the run goes
    on as if the row were not there. *)
Theorem short_tweet_skipped (self : InputGenerator) (line : list string)
    (rows : list (list string)) (tweet : list string) (label : Z)
    (draws : list Z) :
  current_tweet self line = Ok tweet ->
  (length tweet < 3)%nat ->
  current_label self line = Ok label ->
  yield_record self line draws = ([], Finished draws) /\
  yield_rows self (line :: rows) draws = yield_rows self rows draws.
Proof.
  intros Ht Hlen Hl.
  assert (Hrec : yield_record self line draws = ([], Finished draws)).
  { unfold yield_record. rewrite Ht, Hl. unfold chunks.
    rewrite (Nat.div_small (length tweet) 3 Hlen). reflexivity. }
  split; [exact Hrec|]. simpl. rewrite Hrec.
  destruct (yield_rows self rows draws). reflexivity.
Qed.

(** A sentiment field that does not parse ends the run with a
    [ValueError]: the samples of the rows before it have been yielded,
    the row itself yields nothing and the rows after it are never read. *)
Theorem malformed_sentiment_stops (self : InputGenerator)
    (pre post : list (list string)) (line tweet : list string)
    (i : nat) (field : string) (draws rest : list Z) (out : list sample_t) :
  yield_rows self pre draws = (out, Finished rest) ->
  current_tweet self line = Ok tweet ->
  column self "sentiment" = Ok i ->
  getitem line i = Ok field ->
  int field = None ->
  yield_rows self (pre ++ line :: post) draws = (out, Failed ValueError).
Proof.
  intros Hpre Ht Hc Hg Hi. rewrite yield_rows_app, Hpre. simpl.
  unfold yield_record, current_label. rewrite Ht, Hc. simpl. rewrite Hg. simpl.
  rewrite Hi. rewrite app_nil_r. reflexivity.
Qed.

(** The label is the row's: all the samples of one row carry the same
    label, which is 1 or -1. *)
Theorem yield_record_one_label (self : InputGenerator) (line : list string)
    (draws : list Z) (s s' : sample_t) :
  In s (yield_record self line draws).1 ->
  In s' (yield_record self line draws).1 ->
  snd s = snd s' /\ (snd s = 1 \/ snd s = -1).
Proof.
  intros Hs Hs'.
  destruct (yield_record_In _ _ _ _ Hs) as (_ & _ & _ & _ & _ & Hl).
  destruct (yield_record_In _ _ _ _ Hs') as (_ & _ & _ & _ & _ & Hl').
  rewrite Hl in Hl'. injection Hl' as Heq. split; [exact Heq|].
  apply current_label_Ok in Hl. destruct Hl as (i & field & v & _ & _ & _ & ->).
  destruct (0 <? v); auto.
Qed.

(** *** Units of any degree *)

Lemma ngrams_short {A : Type} (l : list A) (n : nat) :
  (length l < n)%nat -> ngrams l n = [].
Proof.
  intros Hlen. destruct l as [|x l]; [reflexivity|].
  simpl. destruct (Nat.leb_spec n (S (length l))); [simpl in Hlen; lia|reflexivity].
Qed.

Lemma every_skip {A : Type} (n : nat) :
  forall (skip : nat) (l : list A),
    every skip n (ngrams l n) = every 0 n (ngrams (drop skip l) n).
Proof.
  induction skip as [|skip IH]; intros l; [reflexivity|].
  destruct l as [|x l]; [reflexivity|].
  cbn [ngrams drop skipn].
  destruct (Nat.leb_spec n (length (x :: l))) as [Hle|Hlt].
  - cbn [every]. apply IH.
  - rewrite (ngrams_short (drop skip l) n); [reflexivity|].
    rewrite length_drop. simpl in Hlt. lia.
Qed.

Lemma every_map {A B : Type} (g : A -> B) (n : nat) :
  forall (l : list A) (skip : nat),
    every skip n (map g l) = map g (every skip n l).
Proof.
  induction l as [|x l IH]; intros skip; [reflexivity|].
  simpl. destruct skip; simpl; rewrite IH; reflexivity.
Qed.

(** Every [n]-th window of length [n]: the consecutive groups of [n]
    items, an incomplete last group left out. *)
Lemma every_ngrams {A : Type} (n : nat) :
  (1 <= n)%nat ->
  forall (m : nat) (l : list A),
    (length l <= m)%nat ->
    every 0 n (ngrams l n) =
    map (fun k => slice l (k * n) ((k + 1) * n)) (seq 0 (length l / n)).
Proof.
  intros Hn. induction m as [|m IH]; intros l Hm.
  - destruct l; [|simpl in Hm; lia].
    simpl. rewrite Nat.Div0.div_0_l. reflexivity.
  - destruct (Nat.lt_ge_cases (length l) n) as [Hlt|Hge].
    + rewrite ngrams_short by assumption.
      rewrite Nat.div_small by assumption. reflexivity.
    + destruct l as [|x l]; [simpl in Hge; lia|].
      assert (Hdiv : (length (x :: l) / n = S (length (drop n (x :: l)) / n))%nat).
      { rewrite length_drop.
        replace (length (x :: l)) with ((length (x :: l) - n) + 1 * n)%nat at 1
          by lia.
        rewrite Nat.div_add by lia. lia. }
      rewrite Hdiv. cbn [ngrams seq map].
      destruct (Nat.leb_spec n (length (x :: l))) as [_|Hlt]; [|lia].
      cbn [every]. rewrite every_skip.
      replace (drop (n - 1) l) with (drop n (x :: l))
        by (destruct n; [lia|simpl; rewrite Nat.sub_0_r; reflexivity]).
      rewrite (IH (drop n (x :: l))) by (rewrite length_drop; simpl in *; lia).
      f_equal.
      * unfold slice. simpl. rewrite Nat.add_0_r, Nat.sub_0_r. reflexivity.
      * rewrite <- seq_shift, map_map. apply map_ext. intros k.
        unfold slice. rewrite drop_drop.
        replace ((S k + 1) * n - S k * n)%nat with ((k + 1) * n - k * n)%nat by lia.
        replace (n + k * n)%nat with (S k * n)%nat by lia. reflexivity.
Qed.

(** At degree [n >= 1] the units of a row are its consecutive groups of
    [n] tokens joined by an underscore, [L / n] of them; tokens left over
    at the end belong to no unit.  At degree 0 the row raises
    [ValueError]. *)
Theorem current_tweet_degree (self : InputGenerator) (line : list string)
    (i : nat) (text : string) :
  column self "text" = Ok i ->
  getitem line i = Ok text ->
  let tokens := tokenize_tweet text in
  let n := ngram self in
  current_tweet self line =
    if (n =? 0)%nat then Raise ValueError
    else Ok (map (fun k => join "_" (slice tokens (k * n) ((k + 1) * n)))
                 (seq 0 (length tokens / n))).
Proof.
  intros Hc Hg tokens n. unfold current_tweet.
  rewrite Hc; simpl. rewrite Hg; simpl. fold tokens. fold n.
  destruct (Nat.eqb_spec n 0) as [->|Hn]; [reflexivity|].
  unfold stride. destruct n as [|n']; [contradiction|].
  rewrite every_map.
  rewrite (every_ngrams (S n') ltac:(lia) (length tokens) tokens (Nat.le_refl _)).
  rewrite map_map. reflexivity.
Qed.

(** *** The generator as an iterator

    [self.samples] is the generator object of [generate_samples]; between
    two calls of [__next__] it is suspended at the top of the loop over
    the reader, or at the [yield] with the groups of the current row that
    are still to come, or it is closed (it has returned or raised). *)

Inductive frame : Type :=
| AtRow (rows : list (list string))
| AtChunk (rows : list (list string)) (label : Z) (pending : list (list string))
| Closed.

(** What [next(self.samples)] does: it yields and suspends, raises
    [StopIteration], raises another exception, or does not return. *)
Inductive reply : Type :=
| Yield (s : sample_t) (f : frame) (rest : list Z)
| StopIter (rest : list Z)
| Error (e : exn)
| Hang.

(** The body of the inner loop up to its [yield]. *)
Definition emit (self : InputGenerator) (label : Z) (current_chunk : list string)
    (after : frame) (draws : list Z) : reply :=
  let sample := lookup_ids (vocab self) current_chunk in
  match corrupted_sample self sample draws with
  | Returned cor rest => Yield ((sample, cor), label) after rest
  | Raised e => Error e
  | Starved => Hang
  end.

(** Resuming at the top of the loop over the reader: rows without a group
    are passed over until one yields. *)
Fixpoint resume_rows (self : InputGenerator) (rows : list (list string))
    (draws : list Z) : reply :=
  match rows with
  | [] => StopIter draws
  | line :: rows' =>
      match current_tweet self line with
      | Raise e => Error e
      | Ok tweet =>
          match current_label self line with
          | Raise e => Error e
          | Ok label =>
              match chunks tweet with
              | [] => resume_rows self rows' draws
              | c :: cs => emit self label c (AtChunk rows' label cs) draws
              end
          end
      end
  end.

(** [__next__]: [next(self.samples)]. *)
Definition next_sample (self : InputGenerator) (f : frame) (draws : list Z)
    : reply :=
  match f with
  | Closed => StopIter draws
  | AtRow rows => resume_rows self rows draws
  | AtChunk rows label [] => resume_rows self rows draws
  | AtChunk rows label (c :: cs) => emit self label c (AtChunk rows label cs) draws
  end.

(** [self.samples] when [__init__] returns. *)
Definition samples (self : InputGenerator) : frame := AtRow (reader self).

(** [for sample in input_generator]: [__iter__] hands back the object and
    [__next__] is called until it raises; the generator is closed then.
    [fuel] bounds the number of calls. *)
Fixpoint for_each (fuel : nat) (self : InputGenerator) (f : frame)
    (draws : list Z) : option (list sample_t * ending * frame) :=
  match fuel with
  | O => None
  | S fuel' =>
      match next_sample self f draws with
      | Yield s f' rest =>
          match for_each fuel' self f' rest with
          | Some (out, e, f'') => Some (s :: out, e, f'')
          | None => None
          end
      | StopIter rest => Some ([], Finished rest, Closed)
      | Error e => Some ([], Failed e, Closed)
      | Hang => Some ([], Retrying, Closed)
      end
  end.

(** What is still to come from a frame, in one piece. *)
Definition run_frame (self : InputGenerator) (f : frame) (draws : list Z)
    : list sample_t * ending :=
  match f with
  | Closed => ([], Finished draws)
  | AtRow rows => yield_rows self rows draws
  | AtChunk rows label pending =>
      match yield_chunks self label pending draws with
      | (out, Finished rest) =>
          let '(out', e) := yield_rows self rows rest in (out ++ out', e)
      | (out, e) => (out, e)
      end
  end.

Lemma resume_rows_run (self : InputGenerator) (rows : list (list string))
    (draws : list Z) :
  match resume_rows self rows draws with
  | Yield s f rest =>
      yield_rows self rows draws =
      (s :: (run_frame self f rest).1, (run_frame self f rest).2)
  | StopIter rest => yield_rows self rows draws = ([], Finished rest)
  | Error e => yield_rows self rows draws = ([], Failed e)
  | Hang => yield_rows self rows draws = ([], Retrying)
  end.
Proof.
  induction rows as [|line rows IH]; [reflexivity|].
  cbn [resume_rows yield_rows]. unfold yield_record.
  destruct (current_tweet self line) as [tweet|e]; [|reflexivity].
  destruct (current_label self line) as [label|e]; [|reflexivity].
  destruct (chunks tweet) as [|c cs].
  - cbn [yield_chunks].
    destruct (resume_rows self rows draws) as [s f rest|rest|e|];
      rewrite IH; reflexivity.
  - unfold emit. cbn [yield_chunks].
    destruct (corrupted_sample self (lookup_ids (vocab self) c) draws)
      as [cor rest| |]; try reflexivity.
    cbn [run_frame].
    destruct (yield_chunks self label cs rest) as [out [rest'|e|]]; try reflexivity.
    destruct (yield_rows self rows rest') as [out' e']. reflexivity.
Qed.

Lemma next_sample_run (self : InputGenerator) (f : frame) (draws : list Z) :
  match next_sample self f draws with
  | Yield s f' rest =>
      run_frame self f draws =
      (s :: (run_frame self f' rest).1, (run_frame self f' rest).2)
  | StopIter rest => run_frame self f draws = ([], Finished rest)
  | Error e => run_frame self f draws = ([], Failed e)
  | Hang => run_frame self f draws = ([], Retrying)
  end.
Proof.
  destruct f as [rows|rows label [|c cs]|].
  - apply resume_rows_run.
  - cbn [next_sample run_frame yield_chunks].
    pose proof (resume_rows_run self rows draws) as H.
    destruct (resume_rows self rows draws) as [s f rest|rest|e|];
      rewrite H; reflexivity.
  - cbn [next_sample run_frame yield_chunks]. unfold emit.
    destruct (corrupted_sample self (lookup_ids (vocab self) c) draws)
      as [cor rest| |]; try reflexivity.
    cbn [run_frame].
    destruct (yield_chunks self label cs rest) as [out [rest'|e|]]; try reflexivity.
    destruct (yield_rows self rows rest') as [out' e']. reflexivity.
  - reflexivity.
Qed.

Lemma for_each_run (self : InputGenerator) :
  forall (fuel : nat) (f : frame) (draws : list Z),
    (length (run_frame self f draws).1 < fuel)%nat ->
    for_each fuel self f draws =
    Some ((run_frame self f draws).1, (run_frame self f draws).2, Closed).
Proof.
  induction fuel as [|fuel IH]; intros f draws Hlen; [lia|].
  cbn [for_each]. pose proof (next_sample_run self f draws) as H.
  destruct (next_sample self f draws) as [s f' rest|rest|e|];
    rewrite H in *; try reflexivity.
  cbn [fst snd length] in *. rewrite IH by lia. reflexivity.
Qed.

(** Iterating the generator object with [__next__] until it raises gives
    the samples of [generate_samples], in order, and ends as it does;
    the object is closed afterwards, so that iterating it once more
    yields nothing, draws nothing and ends at once. *)
Theorem for_each_generate_samples (self : InputGenerator) (draws : list Z)
    (fuel : nat) :
  (length (generate_samples self draws).1 < fuel)%nat ->
  for_each fuel self (samples self) draws =
    Some ((generate_samples self draws).1, (generate_samples self draws).2, Closed) /\
  (forall draws', for_each fuel self Closed draws' =
                  Some ([], Finished draws', Closed)).
Proof.
  intros Hlen. split.
  - apply (for_each_run self fuel (samples self) draws). exact Hlen.
  - intros draws'. destruct fuel; [lia|]. reflexivity.
Qed.

(** *** How many samples a pass gives *)

(** The number of groups of three in a row; a row that cannot be read
    has none. *)
Definition groups_in (self : InputGenerator) (line : list string) : nat :=
  match current_tweet self line with
  | Ok tweet => (length tweet / 3)%nat
  | Raise _ => 0%nat
  end.

Lemma yield_rows_count (self : InputGenerator) (rows : list (list string)) :
  forall (draws rest : list Z),
    (yield_rows self rows draws).2 = Finished rest ->
    length (yield_rows self rows draws).1 = list_sum (map (groups_in self) rows).
Proof.
  induction rows as [|line rows IH]; intros draws rest; simpl; [reflexivity|].
  unfold yield_record, groups_in.
  destruct (current_tweet self line) as [tweet|e]; [|discriminate].
  destruct (current_label self line) as [label|e]; [|discriminate].
  destruct (yield_chunks_draws self label (chunks tweet) draws) as [_ Hfin].
  destruct (yield_chunks self label (chunks tweet) draws) as [out [rest1|e|]];
    simpl in *; try discriminate.
  destruct (Hfin rest1 eq_refl) as (_ & _ & _ & Hn).
  specialize (IH rest1 rest).
  destruct (yield_rows self rows rest1) as [out' e']. simpl in *.
  intros He. rewrite length_app, Hn, chunks_length, (IH He). reflexivity.
Qed.

(** A pass that reaches the end of the reader has yielded, for each row,
    as many samples as the row has whole groups of three units. *)
Theorem generate_samples_count (self : InputGenerator) (draws rest : list Z) :
  (generate_samples self draws).2 = Finished rest ->
  length (generate_samples self draws).1 =
  list_sum (map (groups_in self) (reader self)).
Proof.
  apply yield_rows_count.
Qed.

(** *** How many samples are still to come *)

Lemma yield_chunks_bound (self : InputGenerator) (label : Z)
    (cs : list (list string)) (draws : list Z) :
  (length (yield_chunks self label cs draws).1 <= length cs)%nat.
Proof.
  destruct (yield_chunks_prefix self label cs draws) as [Hp _].
  apply prefix_length in Hp. rewrite !length_map in Hp. exact Hp.
Qed.

Lemma yield_rows_bound (self : InputGenerator) (rows : list (list string)) :
  forall draws : list Z,
    (length (yield_rows self rows draws).1 <=
     list_sum (map (groups_in self) rows))%nat.
Proof.
  induction rows as [|line rows IH]; intros draws; simpl; [lia|].
  assert (Hrec : (length (yield_record self line draws).1 <=
                  groups_in self line)%nat).
  { unfold yield_record, groups_in.
    destruct (current_tweet self line) as [tweet|e]; [|simpl; lia].
    destruct (current_label self line) as [label|e]; [|simpl; lia].
    rewrite <- chunks_length. apply yield_chunks_bound. }
  destruct (yield_record self line draws) as [out [rest|e|]]; simpl in *;
    try lia.
  specialize (IH rest). destruct (yield_rows self rows rest) as [out' e'].
  simpl in *. rewrite length_app. lia.
Qed.

(** A bound on the samples that a frame has still to yield. *)
Definition remaining (self : InputGenerator) (f : frame) : nat :=
  match f with
  | Closed => 0%nat
  | AtRow rows => list_sum (map (groups_in self) rows)
  | AtChunk rows _ pending =>
      (length pending + list_sum (map (groups_in self) rows))%nat
  end.

Lemma run_frame_bound (self : InputGenerator) (f : frame) (draws : list Z) :
  (length (run_frame self f draws).1 <= remaining self f)%nat.
Proof.
  destruct f as [rows|rows label pending|]; simpl; [apply yield_rows_bound| |lia].
  pose proof (yield_chunks_bound self label pending draws) as Hc.
  destruct (yield_chunks self label pending draws) as [out [rest|e|]];
    simpl in *; try lia.
  pose proof (yield_rows_bound self rows rest) as Hr.
  destruct (yield_rows self rows rest) as [out' e']. simpl in *.
  rewrite length_app. lia.
Qed.

(** Iterating a frame to its end takes no more calls of [__next__] than
    that, and one for the end. *)
Lemma for_each_remaining (self : InputGenerator) (f : frame) (draws : list Z) :
  for_each (S (remaining self f)) self f draws =
  Some ((run_frame self f draws).1, (run_frame self f draws).2, Closed).
Proof.
  apply for_each_run. pose proof (run_frame_bound self f draws). lia.
Qed.

End InputGenerator.

Arguments reader {Vocab} _.
Arguments csv_columns {Vocab} _.
Arguments ngram {Vocab} _.
Arguments vocab {Vocab} _.
Arguments init {Vocab} rows vocab0 ngram0 csv_columns0.
Arguments corrupted_sample {Vocab} len self sample draws.
Arguments yield_record {Vocab} len lookup_ids tokenize_tweet int self line draws.
Arguments generate_samples {Vocab} len lookup_ids tokenize_tweet int self draws.

(** *** A run on concrete collaborators

    A vocabulary kept as the list of its words (the id of a word is its
    position, -1 for an unknown word), a tokenizer that splits at blanks
    and a reader of decimal literals stand in for the collaborators. *)

Definition word_id (v : list string) (w : string) : Z :=
  match index v w with
  | Ok i => Z.of_nat i
  | Raise _ => -1
  end.

Definition list_lookup_ids (v : list string) (ws : list string) : list Z :=
  map (word_id v) ws.

Fixpoint split_blanks (s word : string) : list string :=
  match s with
  | EmptyString => if String.eqb word "" then [] else [word]
  | String c s' =>
      if Ascii.eqb c " "%char then
        if String.eqb word "" then split_blanks s' ""
        else word :: split_blanks s' ""
      else split_blanks s' (String.app word (String c EmptyString))
  end.

Definition blank_tokenizer (s : string) : list string := split_blanks s "".

(** Python's [int] on the ASCII strings: blanks around the literal are
    stripped, a sign may precede the digits, and single underscores may
    separate digits. *)
Definition is_space (c : ascii) : bool :=
  let n := Ascii.nat_of_ascii c in
  ((9 <=? n) && (n <=? 13) || (28 <=? n) && (n <=? 32))%nat.

Fixpoint lstrip (s : list ascii) : list ascii :=
  match s with
  | c :: s' => if is_space c then lstrip s' else s
  | [] => []
  end.

Definition strip (s : list ascii) : list ascii :=
  rev (lstrip (rev (lstrip s))).

Fixpoint decimal (s : list ascii) (acc : Z) (after_digit : bool) : option Z :=
  match s with
  | [] => if after_digit then Some acc else None
  | c :: s' =>
      let n := Z.of_nat (Ascii.nat_of_ascii c) in
      if (48 <=? n) && (n <=? 57) then decimal s' (10 * acc + (n - 48)) true
      else if Ascii.eqb c "_"%char && after_digit then decimal s' acc false
      else None
  end.

Definition decimal_int (s : string) : option Z :=
  match strip (String.list_ascii_of_string s) with
  | "-"%char :: s' => option_map Z.opp (decimal s' 0 false)
  | "+"%char :: s' => decimal s' 0 false
  | s' => decimal s' 0 false
  end.

Example decimal_int_accepts :
  map decimal_int ["1"; "+1"; " 1"; "-12 "; "1_000"; "0"] =
  [Some 1; Some 1; Some 1; Some (-12); Some 1000; Some 0].
Proof. reflexivity. Qed.

Example decimal_int_rejects :
  map decimal_int [""; "-"; "n/a"; "1 2"; "_1"; "1_"; "1__0"; "+-1"; "1.5"] =
  [None; None; None; None; None; None; None; None; None].
Proof. reflexivity. Qed.

Definition tweet_columns : list string :=
  ["sentiment"; "id"; "date"; "status"; "user"; "text"].

Definition good_bad_row : list string :=
  ["1"; "id1"; "date"; "status"; "user"; "good good good bad bad bad"].

Definition good_bad : InputGenerator (list string) :=
  {| reader := [good_bad_row];
     csv_columns := Some tweet_columns;
     ngram := 1;
     vocab := ["good"; "bad"] |}.

Definition one_word : InputGenerator (list string) :=
  {| reader := [];
     csv_columns := Some tweet_columns;
     ngram := 1;
     vocab := ["good"] |}.

(** The scenario of the specification: two samples, both labelled 1. *)
Example good_bad_run :
  generate_samples length list_lookup_ids blank_tokenizer decimal_int
    good_bad [1; 1; 0] =
  ([(([0; 0; 0], [0; 1; 0]), 1); (([1; 1; 1], [1; 0; 1]), 1)], Finished []).
Proof. vm_compute. reflexivity. Qed.


Lemma corrupted_sample_small_vocabulary_witness :
  corrupted_sample length one_word [0; 0; 0] [0; 0; 0] = Starved.
Proof.
  refine (corrupted_sample_small_vocabulary (list string) length one_word
            0 0 0 [0; 0; 0] _ _ _).
  - simpl. lia.
  - reflexivity.
  - unfold in_range. repeat (constructor; [simpl; lia|]). constructor.
Defined.

(** With one word in the vocabulary and its id in the middle, the call
    neither returns nor reports anything, however much is drawn. *)
Lemma corrupted_sample_one_word_retries :
  corrupted_sample length one_word [0; 0; 0] [0; 0; 0; 0; 0; 0; 0; 0] = Starved /\
  (forall draws, in_range 0 0 draws ->
     corrupted_sample length one_word [0; 0; 0] draws = Starved).
Proof.
  split; [reflexivity|].
  intros draws Hd. apply corrupted_sample_starved; [reflexivity|exact Hd].
Qed.

(** A file of three rows; the middle one has seven tokens. *)
Definition seven_word_row : list string :=
  ["0"; "id4"; "date"; "status"; "user"; "good bad good bad good bad good"].

Definition three_rows : InputGenerator (list string) :=
  {| reader := [good_bad_row; seven_word_row; good_bad_row];
     csv_columns := Some tweet_columns;
     ngram := 1;
     vocab := ["good"; "bad"] |}.

Lemma generate_samples_trigrams_witness :
  exists from_line,
    map original from_line = [[0; 1; 0]; [1; 0; 1]] /\
    length from_line = 2%nat /\
    generate_samples length list_lookup_ids blank_tokenizer decimal_int
      three_rows [1; 0; 0; 1; 1; 0] =
    ([(([0; 0; 0], [0; 1; 0]), 1); (([1; 1; 1], [1; 0; 1]), 1)] ++
     from_line ++
     [(([0; 0; 0], [0; 1; 0]), 1); (([1; 1; 1], [1; 0; 1]), 1)],
     Finished []).
Proof.
  refine (proj1 (proj2 (proj2 (proj2
            (generate_samples_trigrams (list string) length list_lookup_ids
               blank_tokenizer decimal_int three_rows
               [good_bad_row] [good_bad_row] seven_word_row 5%nat
               "good bad good bad good bad good" (-1)
               [1; 0; 0; 1; 1; 0] [0; 1; 1; 0]
               [(([0; 0; 0], [0; 1; 0]), 1); (([1; 1; 1], [1; 0; 1]), 1)]
               _ _ _ _ _ _)))) [0; 1] [1; 0] _ _ _);
    try reflexivity.
  - simpl. lia.
  - repeat constructor.
    + exists 0, 1, 0. split; [reflexivity|lia].
    + exists 1, 0, 1. split; [reflexivity|lia].
Defined.


(** A file that holds its header and nothing else: the generator is
    built, its columns are [None], and iterating it ends without an
    error. *)
Lemma header_only_no_error :
  exists self,
    init [tweet_columns] ["good"; "bad"] 1 None = Ok self /\
    csv_columns self = None /\
    generate_samples length list_lookup_ids blank_tokenizer decimal_int
      self [] = ([], Finished []).
Proof.
  eexists. repeat split.
Qed.

(** *** Runs for the further behaviour *)

Definition run_rows :=
  yield_rows (list string) length list_lookup_ids blank_tokenizer decimal_int.

Definition four_draws : list Z := [1; 1; 0; 7].

Definition short_row : list string :=
  ["1"; "id2"; "date"; "status"; "user"; "good bad"].

Definition unlabelled_row : list string :=
  ["n/a"; "id3"; "date"; "status"; "user"; "bad bad bad"].

Definition pairs_generator : InputGenerator (list string) :=
  {| reader := [];
     csv_columns := Some tweet_columns;
     ngram := 2;
     vocab := ["good"; "bad"] |}.


Lemma generate_samples_draws_witness :
  exists used,
    four_draws = used ++ [7] /\
    (length (generate_samples length list_lookup_ids blank_tokenizer
               decimal_int good_bad four_draws).1 <= length used)%nat.
Proof.
  refine (generate_samples_draws (list string) length list_lookup_ids
            blank_tokenizer decimal_int good_bad four_draws [7] _).
  reflexivity.
Defined.

Lemma short_tweet_skipped_witness :
  yield_record length list_lookup_ids blank_tokenizer decimal_int
    good_bad short_row [1; 0] = ([], Finished [1; 0]) /\
  run_rows good_bad [short_row; good_bad_row] [1; 0] =
  run_rows good_bad [good_bad_row] [1; 0].
Proof.
  refine (short_tweet_skipped (list string) length list_lookup_ids
            blank_tokenizer decimal_int good_bad short_row [good_bad_row]
            ["good"; "bad"] 1 [1; 0] _ _ _).
  - reflexivity.
  - simpl. lia.
  - reflexivity.
Defined.

Lemma malformed_sentiment_stops_witness :
  run_rows good_bad ([good_bad_row] ++ unlabelled_row :: [good_bad_row])
    [1; 0; 1; 0] =
  ([(([0; 0; 0], [0; 1; 0]), 1); (([1; 1; 1], [1; 0; 1]), 1)],
   Failed ValueError).
Proof.
  refine (malformed_sentiment_stops (list string) length list_lookup_ids
            blank_tokenizer decimal_int good_bad [good_bad_row] [good_bad_row]
            unlabelled_row ["bad"; "bad"; "bad"] 0%nat "n/a" [1; 0; 1; 0] [1; 0]
            _ _ _ _ _ _); reflexivity.
Defined.

Lemma yield_record_one_label_witness :
  1 = 1 /\ (1 = 1 \/ 1 = -1).
Proof.
  refine (yield_record_one_label (list string) length list_lookup_ids
            blank_tokenizer decimal_int good_bad good_bad_row [1; 0]
            (([0; 0; 0], [0; 1; 0]), 1) (([1; 1; 1], [1; 0; 1]), 1) _ _).
  - vm_compute. left. reflexivity.
  - vm_compute. right. left. reflexivity.
Defined.

Lemma current_tweet_degree_witness :
  current_tweet (list string) blank_tokenizer pairs_generator
    ["0"; "id"; "date"; "status"; "user"; "a b c d e"] =
  Ok ["a_b"; "c_d"].
Proof.
  refine (current_tweet_degree (list string) blank_tokenizer pairs_generator
            ["0"; "id"; "date"; "status"; "user"; "a b c d e"] 5%nat
            "a b c d e" _ _); reflexivity.
Defined.

Lemma generate_samples_count_witness :
  length (generate_samples length list_lookup_ids blank_tokenizer decimal_int
            good_bad four_draws).1 =
  list_sum (map (groups_in (list string) blank_tokenizer good_bad)
                (reader good_bad)).
Proof.
  refine (generate_samples_count (list string) length list_lookup_ids
            blank_tokenizer decimal_int good_bad four_draws [7] _).
  reflexivity.
Defined.

Lemma for_each_generate_samples_witness :
  for_each (list string) length list_lookup_ids blank_tokenizer decimal_int
    3 good_bad (samples (list string) good_bad) [1; 0] =
  Some ([(([0; 0; 0], [0; 1; 0]), 1); (([1; 1; 1], [1; 0; 1]), 1)],
        Finished [], Closed) /\
  (forall draws',
     for_each (list string) length list_lookup_ids blank_tokenizer decimal_int
       3 good_bad Closed draws' = Some ([], Finished draws', Closed)).
Proof.
  refine (for_each_generate_samples (list string) length list_lookup_ids
            blank_tokenizer decimal_int good_bad [1; 0] 3 _).
  vm_compute. lia.
Defined.

End Sampling.

(** ** The scorer and the joint loss *)

Module Network.

Import Py.

(** The arithmetic of tensor elements ([tf.float32] in the source).
    [cast] is [tf.cast(_, tf.float32)], which is also how a Python
    number enters a tensor expression. *)
Class Scalar (F : Type) : Type := {
  cast : Z -> F;
  add : F -> F -> F;
  sub : F -> F -> F;
  mul : F -> F -> F;
  div : F -> F -> F;
  maximum : F -> F -> F;
  minimum : F -> F -> F;
  le : F -> F -> Prop
}.

(** A batch of trigrams has the static shape [[None, 3]]. *)
Definition trigram : Type := Z * Z * Z.

Inductive tensor (F : Type) : Type :=
| Vec (v : list F)
| Mat (m : list (list F)).
Arguments Vec {F} v.
Arguments Mat {F} m.

Inductive ModeKeys : Type := TRAIN | EVAL | PREDICT.

Record Features : Type := {
  original : list trigram;
  corrupted : list trigram
}.

(** [opt.minimize(loss)] for an Adagrad optimizer: the update itself is
    the runtime's. *)
Inductive TrainOp (F : Type) : Type :=
| Minimize (learning_rate : F) (loss : F).
Arguments Minimize {F} learning_rate loss.

Record EstimatorSpec (F : Type) : Type := {
  spec_mode : ModeKeys;
  predictions : option (list (list F));
  loss : option F;
  train_op : option (TrainOp F)
}.
Arguments spec_mode {F} _.
Arguments predictions {F} _.
Arguments loss {F} _.
Arguments train_op {F} _.

Fixpoint traverse {A B : Type} (f : A -> result B) (l : list A)
    : result (list B) :=
  match l with
  | [] => Ok []
  | a :: l' => rbind (f a) (fun b => rbind (traverse f l') (fun bs => Ok (b :: bs)))
  end.

Section Tensors.

Context {F : Type} `{Scalar F}.

(** An elementwise operation on two vectors, with broadcasting of a
    vector of one element; other shapes must agree. *)
Definition elementwise (f : F -> F -> F) (xs ys : list F) : result (list F) :=
  match xs, ys with
  | [x], _ => Ok (map (f x) ys)
  | _, [y] => Ok (map (fun x => f x y) xs)
  | _, _ =>
      if (length xs =? length ys)%nat then Ok (zip_with f xs ys)
      else Raise InvalidArgumentError
  end.

Definition reduce_sum (xs : list F) : F := foldr add (cast 0) xs.

Definition reduce_mean (xs : list F) : F :=
  div (reduce_sum xs) (cast (Z.of_nat (length xs))).

(** [tf.clip_by_value]: the minimum with the upper bound, then the
    maximum with the lower one. *)
Definition clip_by_value (x lo hi : F) : F := maximum (minimum x hi) lo.

(** [m[:, j]]. *)
Definition column (j : nat) (m : list (list F)) : result (list F) :=
  traverse (fun row => getitem row j) m.

(** The [loss] block of [model_fn]. *)
Definition joint_loss (alpha : F) (labels : list Z)
    (original_syntactic_score original_sentiment_score
     corrupted_syntactic_score corrupted_sentiment_score : list F) : result F :=
  rbind (elementwise mul (map cast labels) original_sentiment_score) (fun lo =>
  rbind (elementwise mul (map cast labels) corrupted_sentiment_score) (fun lc =>
  rbind (elementwise add (map (sub (cast 1)) lo) lc) (fun sentiment =>
  let sentiment_loss := reduce_mean (map (maximum (cast 0)) sentiment) in
  rbind (elementwise add (map (sub (cast 1)) original_syntactic_score)
           corrupted_syntactic_score) (fun syntactic =>
  let syntactic_loss := reduce_mean (map (maximum (cast 0)) syntactic) in
  Ok (add (mul alpha syntactic_loss)
          (mul (sub (cast 1) alpha) sentiment_loss)))))).

(** The two means that the block mixes. *)
Definition sentiment_loss (labels : list Z)
    (original_sentiment_score corrupted_sentiment_score : list F) : result F :=
  rbind (elementwise mul (map cast labels) original_sentiment_score) (fun lo =>
  rbind (elementwise mul (map cast labels) corrupted_sentiment_score) (fun lc =>
  rbind (elementwise add (map (sub (cast 1)) lo) lc) (fun sentiment =>
  Ok (reduce_mean (map (maximum (cast 0)) sentiment))))).

Definition syntactic_loss
    (original_syntactic_score corrupted_syntactic_score : list F) : result F :=
  rbind (elementwise add (map (sub (cast 1)) original_syntactic_score)
           corrupted_syntactic_score) (fun syntactic =>
  Ok (reduce_mean (map (maximum (cast 0)) syntactic))).

(** *** The loss as the specification words it, sample by sample *)

Record scored : Type := {
  orig_syn : F;
  orig_sent : F;
  corr_syn : F;
  corr_sent : F;
  label : Z
}.

Definition syntactic_hinge (s : scored) : F :=
  maximum (cast 0) (add (sub (cast 1) (orig_syn s)) (corr_syn s)).

Definition sentiment_hinge (s : scored) : F :=
  maximum (cast 0)
    (add (sub (cast 1) (mul (cast (label s)) (orig_sent s)))
         (mul (cast (label s)) (corr_sent s))).

Definition batch_loss (alpha : F) (batch : list scored) : F :=
  add (mul alpha (reduce_mean (map syntactic_hinge batch)))
      (mul (sub (cast 1) alpha) (reduce_mean (map sentiment_hinge batch))).

(** *** Shapes that agree *)

Lemma elementwise_same_length (f : F -> F -> F) (xs ys : list F) :
  length xs = length ys ->
  elementwise f xs ys = Ok (zip_with f xs ys).
Proof.
  intros Hlen. unfold elementwise.
  destruct xs as [|x [|x' xs]]; destruct ys as [|y [|y' ys]];
    try discriminate Hlen; try reflexivity.
  rewrite Hlen, Nat.eqb_refl. reflexivity.
Qed.

Lemma zip_with_columns {A : Type} (f : F -> F -> F) (g h : A -> F)
    (batch : list A) :
  zip_with f (map g batch) (map h batch) = map (fun s => f (g s) (h s)) batch.
Proof.
  induction batch as [|s batch IH]; [reflexivity|].
  simpl. rewrite IH. reflexivity.
Qed.

Lemma elementwise_columns {A : Type} (f : F -> F -> F) (g h : A -> F)
    (batch : list A) :
  elementwise f (map g batch) (map h batch) =
  Ok (map (fun s => f (g s) (h s)) batch).
Proof.
  rewrite elementwise_same_length by (rewrite !length_map; reflexivity).
  rewrite zip_with_columns. reflexivity.
Qed.

(** The loss block on the columns of a batch of scored samples. *)
Lemma joint_loss_columns (alpha : F) (batch : list scored) :
  joint_loss alpha (map label batch)
    (map orig_syn batch) (map orig_sent batch)
    (map corr_syn batch) (map corr_sent batch) =
  Ok (batch_loss alpha batch).
Proof.
  unfold joint_loss, batch_loss.
  rewrite (map_map label cast).
  rewrite (elementwise_columns mul (fun s => cast (label s)) orig_sent). simpl.
  rewrite (elementwise_columns mul (fun s => cast (label s)) corr_sent). simpl.
  rewrite (map_map _ (sub (cast 1))).
  rewrite (elementwise_columns add
             (fun s => sub (cast 1) (mul (cast (label s)) (orig_sent s)))
             (fun s => mul (cast (label s)) (corr_sent s))). simpl.
  rewrite (map_map orig_syn (sub (cast 1))).
  rewrite (elementwise_columns add (fun s => sub (cast 1) (orig_syn s)) corr_syn).
  simpl. rewrite !map_map. reflexivity.
Qed.




End Tensors.

Arguments scored F : clear implicits.

(** *** The variables of the graph and the shared network

    Each call of [model_fn] builds a graph of its own, so its variable
    store starts empty.  Under [reuse=tf.AUTO_REUSE], [get_variable]
    hands back the variable of that name when there is one and creates
    it otherwise.  The value a created variable holds when the graph
    runs (drawn by its initializer or restored from a checkpoint) is
    given by [initial], element by element. *)

Section Model.

Context {F : Type} `{Scalar F}.

Variable initial : string -> nat -> nat -> F.

Variable vocabulary_size : nat.
Variable alpha : F.
Variable hidden_units : nat.
Variable learning_rate : F.
Variable embedding_size : nat.
Variable initial_embedding : option (list (list F)).

Definition St (A : Type) : Type :=
  gmap string (tensor F) -> result (A * gmap string (tensor F)).

Definition sret {A : Type} (a : A) : St A := fun vars => Ok (a, vars).

Definition sbind {A B : Type} (m : St A) (k : A -> St B) : St B :=
  fun vars => rbind (m vars) (fun '(a, vars') => k a vars').

Definition slift {A : Type} (r : result A) : St A :=
  fun vars => rbind r (fun a => Ok (a, vars)).

Definition fresh_matrix (name : string) (rows cols : nat) : list (list F) :=
  map (fun i => map (fun j => initial name i j) (seq 0 cols)) (seq 0 rows).

Definition fresh_vector (name : string) (n : nat) : list F :=
  map (fun j => initial name 0 j) (seq 0 n).

Definition has_shape (rows cols : nat) (m : list (list F)) : bool :=
  (length m =? rows)%nat && forallb (fun r => (length r =? cols)%nat) m.

(** [tf.constant_initializer(value)] called on the shape [[rows, cols]]:
    the elements of the array, in row-major order, fill the variable
    whatever the shape of the array is; when they are fewer than the
    variable holds, the last one is repeated (zero when there is none);
    when they are more, the call raises [ValueError].  An array has rows
    of one length; a nested list that has not is refused ([ValueError])
    when it is converted. *)
Definition rectangular (value : list (list F)) : bool :=
  match value with
  | [] => true
  | row :: value' => forallb (fun r => (length r =? length row)%nat) value'
  end.

Fixpoint reshape (rows cols : nat) (flat : list F) : list (list F) :=
  match rows with
  | O => []
  | S rows' => take cols flat :: reshape rows' cols (drop cols flat)
  end.

Definition constant_initializer (value : list (list F)) (rows cols : nat)
    : result (list (list F)) :=
  let flat := concat value in
  if negb (rectangular value) then Raise ValueError
  else if (rows * cols <? length flat)%nat then Raise ValueError
  else Ok (reshape rows cols
             (flat ++ repeat (default (cast 0) (last flat))
                             (rows * cols - length flat))).

(** The value a matrix variable is created with. *)
Definition initial_value (name : string) (rows cols : nat)
    (init : option (list (list F))) : result (list (list F)) :=
  match init with
  | Some value => constant_initializer value rows cols
  | None => Ok (fresh_matrix name rows cols)
  end.

(** [tf.get_variable(name, [rows, cols], initializer=init)]. *)
Definition get_matrix (name : string) (rows cols : nat)
    (init : option (list (list F))) : St (list (list F)) :=
  fun vars =>
    match vars !! name with
    | Some (Mat m) => Ok (m, vars)
    | Some (Vec _) => Raise ValueError
    | None =>
        rbind (initial_value name rows cols init) (fun m =>
        Ok (m, <[name := Mat m]> vars))
    end.

Definition get_vector (name : string) (n : nat) : St (list F) :=
  fun vars =>
    match vars !! name with
    | Some (Vec v) => Ok (v, vars)
    | Some (Mat _) => Raise ValueError
    | None =>
        let v := fresh_vector name n in
        Ok (v, <[name := Vec v]> vars)
    end.

(** One row of [tf.nn.embedding_lookup]: an id outside the matrix is an
    error. *)
Definition embedding_row (word_embeddings : list (list F)) (id : Z)
    : result (list F) :=
  match (if 0 <=? id then word_embeddings !! Z.to_nat id else None) with
  | Some row => Ok row
  | None => Raise InvalidArgumentError
  end.

(** The lookup of a batch, followed by [tf.layers.flatten]. *)
Definition flattened_embeds (word_embeddings : list (list F))
    (input : list trigram) : result (list (list F)) :=
  traverse
    (fun '(a, b, c) =>
       rbind (embedding_row word_embeddings a) (fun ea =>
       rbind (embedding_row word_embeddings b) (fun eb =>
       rbind (embedding_row word_embeddings c) (fun ec =>
       Ok (ea ++ eb ++ ec)))))
    input.

(** [x · kernel] for one row [x] of the input. *)
Definition matvec (x : list F) (kernel : list (list F)) (units : nat) : list F :=
  foldr (fun '(xk, row) acc => zip_with add (map (mul xk) row) acc)
        (repeat (cast 0) units) (zip x kernel).

(** What a dense layer computes once it has its variables. *)
Definition affine (activation : F -> F) (kernel : list (list F))
    (bias : list F) (units : nat) (inputs : list (list F)) : list (list F) :=
  map (fun x => map activation (zip_with add (matvec x kernel units) bias))
      inputs.

(** [tf.layers.dense(inputs, units, activation, name, reuse=AUTO_REUSE)]
    inside the [shared_network] scope. *)
Definition dense (inputs : list (list F)) (in_dim units : nat)
    (activation : F -> F) (name : string) : St (list (list F)) :=
  sbind (get_matrix (String.app "shared_network/" (String.app name "/kernel"))
           in_dim units None) (fun kernel =>
  sbind (get_vector (String.app "shared_network/" (String.app name "/bias"))
           units) (fun bias =>
  sret (affine activation kernel bias units inputs))).

Definition hidden_activation (x : F) : F :=
  clip_by_value x (cast (-1)) (cast 1).

Definition shared_network (input : list trigram) : St (list (list F)) :=
  sbind (get_matrix "shared_network/word_embeddings"
           vocabulary_size embedding_size initial_embedding)
        (fun word_embeddings =>
  sbind (slift (flattened_embeds word_embeddings input)) (fun flattened =>
  sbind (dense flattened (3 * embedding_size) hidden_units
           hidden_activation "hidden") (fun hidden =>
  sbind (dense hidden hidden_units 2 (fun x => x) "output") (fun output =>
  sret output)))).

Definition model_fn (mode : ModeKeys) (features : Features)
    (labels : list Z) : result (EstimatorSpec F) :=
  rbind (shared_network (original features) ∅) (fun '(original_output, vars1) =>
  rbind (column 0 original_output) (fun original_syntactic_score =>
  rbind (column 1 original_output) (fun original_sentiment_score =>
  rbind (shared_network (corrupted features) vars1) (fun '(corrupted_output, _) =>
  rbind (column 0 corrupted_output) (fun corrupted_syntactic_score =>
  rbind (column 1 corrupted_output) (fun corrupted_sentiment_score =>
  rbind (match mode with
         | TRAIN | EVAL =>
             rbind (joint_loss alpha labels
                      original_syntactic_score original_sentiment_score
                      corrupted_syntactic_score corrupted_sentiment_score)
                   (fun l => Ok (Some l))
         | PREDICT => Ok None
         end) (fun loss0 =>
  let predictions0 :=
    match mode with
    | PREDICT => Some original_output
    | _ => None
    end in
  let train_op0 :=
    match mode, loss0 with
    | TRAIN, Some l => Some (Minimize learning_rate l)
    | _, _ => None
    end in
  Ok {| spec_mode := mode;
        predictions := predictions0;
        loss := loss0;
        train_op := train_op0 |}))))))).

(** *** The parameters a call reads *)

Record params : Type := {
  word_embeddings : list (list F);
  hidden_kernel : list (list F);
  hidden_bias : list F;
  output_kernel : list (list F);
  output_bias : list F
}.

(** The variables of the graph hold [p]. *)
Definition holds (vars : gmap string (tensor F)) (p : params) : Prop :=
  vars !! "shared_network/word_embeddings" = Some (Mat (word_embeddings p)) /\
  vars !! "shared_network/hidden/kernel" = Some (Mat (hidden_kernel p)) /\
  vars !! "shared_network/hidden/bias" = Some (Vec (hidden_bias p)) /\
  vars !! "shared_network/output/kernel" = Some (Mat (output_kernel p)) /\
  vars !! "shared_network/output/bias" = Some (Vec (output_bias p)).

(** The hidden layer and the scores as functions of the parameters. *)
Definition hidden_layer (p : params) (flattened : list (list F))
    : list (list F) :=
  affine hidden_activation (hidden_kernel p) (hidden_bias p) hidden_units
    flattened.

Definition output_layer (p : params) (hidden : list (list F))
    : list (list F) :=
  affine (fun x => x) (output_kernel p) (output_bias p) 2 hidden.

Definition score (p : params) (input : list trigram)
    : result (list (list F)) :=
  rbind (flattened_embeds (word_embeddings p) input) (fun flattened =>
  Ok (output_layer p (hidden_layer p flattened))).

(** The output layer of [p] has two units. *)
Definition two_outputs (p : params) : Prop :=
  Forall (fun row => length row = 2%nat) (output_kernel p) /\
  length (output_bias p) = 2%nat.

Definition ids_in_range (input : list trigram) : Prop :=
  Forall (fun '(a, b, c) =>
            (0 <= a < Z.of_nat vocabulary_size) /\
            (0 <= b < Z.of_nat vocabulary_size) /\
            (0 <= c < Z.of_nat vocabulary_size)) input.

(** The initial embedding, when there is one, fits the variable. *)
Definition initial_embedding_fits : Prop :=
  match initial_embedding with
  | Some m0 => has_shape vocabulary_size embedding_size m0 = true
  | None => True
  end.

(** The embedding variable can be created. *)
Definition initial_embedding_loads : Prop :=
  exists m,
    initial_value "shared_network/word_embeddings" vocabulary_size
      embedding_size initial_embedding = Ok m.

Definition in_unit_interval (x : F) : Prop :=
  le (cast (-1)) x /\ le x (cast 1).

(** A row of the output: the syntactic score, then the sentiment score. *)
Definition score_row (s : F * F) : list F := [s.1; s.2].

(** The parameters and the variables that the first call creates. *)
Definition created : params :=
  {| word_embeddings :=
       match initial_value "shared_network/word_embeddings" vocabulary_size
               embedding_size initial_embedding with
       | Ok m => m
       | Raise _ => []
       end;
     hidden_kernel :=
       fresh_matrix "shared_network/hidden/kernel" (3 * embedding_size) hidden_units;
     hidden_bias := fresh_vector "shared_network/hidden/bias" hidden_units;
     output_kernel := fresh_matrix "shared_network/output/kernel" hidden_units 2;
     output_bias := fresh_vector "shared_network/output/bias" 2 |}.

Definition created_vars : gmap string (tensor F) :=
  <["shared_network/output/bias" := Vec (output_bias created)]>
  (<["shared_network/output/kernel" := Mat (output_kernel created)]>
  (<["shared_network/hidden/bias" := Vec (hidden_bias created)]>
  (<["shared_network/hidden/kernel" := Mat (hidden_kernel created)]>
  (<["shared_network/word_embeddings" := Mat (word_embeddings created)]> ∅)))).

(** *** One set of variables for every call *)

Ltac layer_names :=
  change (String.app "shared_network/" (String.app "hidden" "/kernel"))
    with "shared_network/hidden/kernel" in *;
  change (String.app "shared_network/" (String.app "hidden" "/bias"))
    with "shared_network/hidden/bias" in *;
  change (String.app "shared_network/" (String.app "output" "/kernel"))
    with "shared_network/output/kernel" in *;
  change (String.app "shared_network/" (String.app "output" "/bias"))
    with "shared_network/output/bias" in *.

Lemma created_holds : holds created_vars created.
Proof.
  unfold holds, created_vars. repeat split; simplify_map_eq; reflexivity.
Qed.

(** An array of the shape of the variable is the value of the variable. *)
Lemma concat_length_rows (cols : nat) (m : list (list F)) :
  Forall (fun r => length r = cols) m ->
  length (concat m) = (length m * cols)%nat.
Proof.
  induction 1 as [|r m Hr _ IH]; [reflexivity|].
  simpl. rewrite length_app, Hr, IH. reflexivity.
Qed.

Lemma reshape_concat (cols : nat) (m : list (list F)) :
  Forall (fun r => length r = cols) m ->
  reshape (length m) cols (concat m) = m.
Proof.
  induction 1 as [|r m Hr _ IH]; [reflexivity|].
  simpl. rewrite <- Hr at 1 3.
  rewrite take_app_length, drop_app_length, IH. reflexivity.
Qed.

Lemma has_shape_rows (rows cols : nat) (m : list (list F)) :
  has_shape rows cols m = true ->
  length m = rows /\ Forall (fun r => length r = cols) m.
Proof.
  unfold has_shape. intros Hs. apply andb_prop in Hs. destruct Hs as [Hr Hc].
  split; [apply Nat.eqb_eq; exact Hr|].
  apply Forall_forall. intros r Hin. apply Nat.eqb_eq.
  rewrite forallb_forall in Hc. apply Hc, list_elem_of_In, Hin.
Qed.

Lemma constant_initializer_has_shape (rows cols : nat) (m : list (list F)) :
  has_shape rows cols m = true ->
  constant_initializer m rows cols = Ok m.
Proof.
  intros Hs. destruct (has_shape_rows _ _ _ Hs) as [Hrows Hcols].
  unfold constant_initializer.
  assert (Hrect : rectangular m = true).
  { destruct m as [|r m]; [reflexivity|]. simpl.
    apply Forall_cons in Hcols. destruct Hcols as [Hr Hcols].
    apply forallb_forall. intros r' Hin. apply Nat.eqb_eq.
    rewrite Forall_forall in Hcols. rewrite Hr.
    apply Hcols, list_elem_of_In, Hin. }
  rewrite Hrect. simpl.
  rewrite (concat_length_rows cols m Hcols), Hrows.
  rewrite Nat.ltb_irrefl, Nat.sub_diag. simpl. rewrite app_nil_r.
  rewrite <- Hrows. rewrite (reshape_concat cols m Hcols). reflexivity.
Qed.

Lemma initial_value_fits :
  initial_embedding_fits ->
  initial_value "shared_network/word_embeddings" vocabulary_size
    embedding_size initial_embedding =
  Ok (match initial_embedding with
      | Some m0 => m0
      | None => fresh_matrix "shared_network/word_embeddings"
                  vocabulary_size embedding_size
      end).
Proof.
  unfold initial_embedding_fits, initial_value.
  destruct initial_embedding as [m0|]; [|reflexivity].
  apply constant_initializer_has_shape.
Qed.

Lemma initial_embedding_fits_loads :
  initial_embedding_fits -> initial_embedding_loads.
Proof.
  intros Hfit. eexists. apply initial_value_fits. exact Hfit.
Qed.

Lemma initial_value_created :
  initial_embedding_loads ->
  initial_value "shared_network/word_embeddings" vocabulary_size
    embedding_size initial_embedding = Ok (word_embeddings created).
Proof.
  intros [m Hm]. unfold created. simpl. rewrite Hm. reflexivity.
Qed.

Lemma shared_network_first_loads (input : list trigram) :
  initial_embedding_loads ->
  shared_network input ∅ =
  rbind (score created input) (fun o => Ok (o, created_vars)).
Proof.
  intros Hload. unfold shared_network, score, sbind, slift, sret.
  unfold get_matrix at 1. rewrite lookup_empty.
  rewrite (initial_value_created Hload). simpl.
  destruct (flattened_embeds _ input) as [flat|e]; simpl; [|reflexivity].
  unfold created_vars, output_layer, hidden_layer.
  unfold dense, sbind, sret, get_matrix, get_vector; simpl.
  simplify_map_eq. reflexivity.
Qed.

Lemma shared_network_first (input : list trigram) :
  initial_embedding_fits ->
  shared_network input ∅ =
  rbind (score created input) (fun o => Ok (o, created_vars)).
Proof.
  intros Hfit. apply shared_network_first_loads, initial_embedding_fits_loads.
  exact Hfit.
Qed.

Lemma shared_network_reuse (vars : gmap string (tensor F)) (p : params)
    (input : list trigram) :
  holds vars p ->
  shared_network input vars =
  rbind (score p input) (fun o => Ok (o, vars)).
Proof.
  intros (HE & HK1 & Hb1 & HK2 & Hb2).
  unfold shared_network, score, sbind, slift, sret.
  unfold get_matrix at 1. rewrite HE. simpl.
  destruct (flattened_embeds _ input) as [flat|e]; simpl; [|reflexivity].
  unfold dense, sbind, sret, get_matrix, get_vector. simpl. layer_names.
  rewrite HK1. simpl. rewrite Hb1. simpl. rewrite HK2. simpl. rewrite Hb2.
  reflexivity.
Qed.


(** *** The lookup succeeds on ids of the vocabulary *)

Lemma created_embeddings_length :
  initial_embedding_fits ->
  length (word_embeddings created) = vocabulary_size.
Proof.
  intros Hfit. unfold created. simpl. rewrite (initial_value_fits Hfit).
  unfold initial_embedding_fits in Hfit.
  destruct initial_embedding as [m0|].
  - apply (has_shape_rows _ _ _ Hfit).
  - unfold fresh_matrix. rewrite length_map, length_seq. reflexivity.
Qed.

Lemma embedding_row_in_range (E : list (list F)) (id : Z) :
  0 <= id < Z.of_nat (length E) ->
  exists row, embedding_row E id = Ok row.
Proof.
  intros Hid. unfold embedding_row.
  destruct (Z.leb_spec 0 id); [|lia].
  destruct (lookup_lt_is_Some_2 E (Z.to_nat id) ltac:(lia)) as [row Hrow].
  rewrite Hrow. exists row. reflexivity.
Qed.

Lemma flattened_embeds_in_range (E : list (list F)) (input : list trigram) :
  length E = vocabulary_size ->
  ids_in_range input ->
  exists flat, flattened_embeds E input = Ok flat /\ length flat = length input.
Proof.
  intros HE Hin. unfold flattened_embeds.
  induction Hin as [|[[a b] c] input (Ha & Hb & Hc) _ IH].
  - exists []. split; reflexivity.
  - destruct IH as (flat & Hflat & Hlen). simpl.
    destruct (embedding_row_in_range E a ltac:(lia)) as [ea ->].
    destruct (embedding_row_in_range E b ltac:(lia)) as [eb ->].
    destruct (embedding_row_in_range E c ltac:(lia)) as [ec ->].
    simpl. rewrite Hflat. simpl. eexists. split; [reflexivity|].
    simpl. rewrite Hlen. reflexivity.
Qed.

(** *** Two scores per item *)

Lemma matvec_length (x : list F) (kernel : list (list F)) (units : nat) :
  Forall (fun row => length row = units) kernel ->
  length (matvec x kernel units) = units.
Proof.
  intros HK. unfold matvec. revert x.
  induction HK as [|row kernel Hrow _ IH]; intros x.
  - destruct x; simpl; apply repeat_length.
  - destruct x as [|xk x]; simpl; [apply repeat_length|].
    rewrite length_zip_with, length_map, Hrow, IH. lia.
Qed.

Lemma created_two_outputs : two_outputs created.
Proof.
  unfold two_outputs, created. simpl. split.
  - unfold fresh_matrix. apply Forall_forall. intros row Hrow.
    apply list_elem_of_In, in_map_iff in Hrow. destruct Hrow as (i & <- & _).
    rewrite length_map, length_seq. reflexivity.
  - reflexivity.
Qed.

Lemma output_layer_rows (p : params) (hidden : list (list F)) :
  two_outputs p ->
  exists scores,
    output_layer p hidden = map score_row scores /\
    length scores = length hidden.
Proof.
  intros [HK Hb]. unfold output_layer, affine.
  induction hidden as [|h hidden IH].
  - exists []. split; reflexivity.
  - destruct IH as (scores & Hs & Hlen).
    pose proof (matvec_length h (output_kernel p) 2 HK) as Hm.
    cbn [map]. rewrite Hs.
    destruct (matvec h (output_kernel p) 2) as [|m0 [|m1 [|? ?]]];
      try discriminate Hm.
    destruct (output_bias p) as [|b0 [|b1 [|? ?]]]; try discriminate Hb.
    exists ((add m0 b0, add m1 b1) :: scores). simpl. rewrite Hlen.
    split; reflexivity.
Qed.

Lemma column_score_rows (scores : list (F * F)) :
  column 0 (map score_row scores) = Ok (map fst scores) /\
  column 1 (map score_row scores) = Ok (map snd scores).
Proof.
  unfold column. induction scores as [|sc scores [IH0 IH1]].
  - split; reflexivity.
  - simpl. rewrite IH0, IH1. split; reflexivity.
Qed.

(** *** What [model_fn] returns *)

(** The specification a mode gets from a loss. *)
Definition spec_of (mode : ModeKeys) (original_output : list (list F))
    (l : F) : EstimatorSpec F :=
  match mode with
  | TRAIN => {| spec_mode := TRAIN; predictions := None; loss := Some l;
                train_op := Some (Minimize learning_rate l) |}
  | EVAL => {| spec_mode := EVAL; predictions := None; loss := Some l;
               train_op := None |}
  | PREDICT => {| spec_mode := PREDICT; predictions := Some original_output;
                  loss := None; train_op := None |}
  end.

Lemma model_fn_scored (mode : ModeKeys) (features : Features)
    (labels : list Z) (so sc : list (F * F)) :
  initial_embedding_fits ->
  score created (original features) = Ok (map score_row so) ->
  score created (corrupted features) = Ok (map score_row sc) ->
  model_fn mode features labels =
  match mode with
  | PREDICT => Ok (spec_of PREDICT (map score_row so) (cast 0))
  | _ =>
      rbind (joint_loss alpha labels (map fst so) (map snd so)
               (map fst sc) (map snd sc))
            (fun l => Ok (spec_of mode (map score_row so) l))
  end.
Proof.
  intros Hfit Hso Hsc. unfold model_fn.
  rewrite (shared_network_first _ Hfit), Hso. simpl.
  destruct (column_score_rows so) as [-> ->]. simpl.
  rewrite (shared_network_reuse _ _ _ created_holds), Hsc. simpl.
  destruct (column_score_rows sc) as [-> ->]. simpl.
  destruct mode; simpl; try reflexivity;
    destruct (joint_loss alpha labels (map fst so) (map snd so)
                (map fst sc) (map snd sc)); reflexivity.
Qed.

(** C2: on a batch of scored samples the loss block gives
    [alpha * mean (max 0 (1 - orig_syn + corr_syn)) +
     (1 - alpha) * mean (max 0 (1 - label * orig_sent + label * corr_sent))];
    and this is the loss [model_fn] returns in the TRAIN and EVAL modes
    when the two branches score the batch so. *)
Theorem model_fn_loss_spec (batch : list (scored F)) :
  joint_loss alpha (map label batch)
    (map orig_syn batch) (map orig_sent batch)
    (map corr_syn batch) (map corr_sent batch) = Ok (batch_loss alpha batch) /\
  (forall mode features,
     mode <> PREDICT ->
     initial_embedding_fits ->
     score created (original features) =
       Ok (map (fun s => [orig_syn s; orig_sent s]) batch) ->
     score created (corrupted features) =
       Ok (map (fun s => [corr_syn s; corr_sent s]) batch) ->
     exists spec,
       model_fn mode features (map label batch) = Ok spec /\
       loss spec = Some (batch_loss alpha batch)).
Proof.
  split; [apply joint_loss_columns|].
  intros mode features Hmode Hfit Hso Hsc.
  rewrite <- (map_map (fun s => (orig_syn s, orig_sent s)) score_row) in Hso.
  rewrite <- (map_map (fun s => (corr_syn s, corr_sent s)) score_row) in Hsc.
  rewrite (model_fn_scored mode features _ _ _ Hfit Hso Hsc).
  rewrite !map_map. simpl.
  rewrite (joint_loss_columns alpha batch).
  destruct mode; [| |contradiction]; eexists; split; reflexivity.
Qed.


(** *** Further behaviour of the scorer and of [model_fn] *)

Lemma traverse_app {A B : Type} (f : A -> result B) (xs ys : list A) :
  traverse f (xs ++ ys) =
  rbind (traverse f xs) (fun a => rbind (traverse f ys) (fun b => Ok (a ++ b))).
Proof.
  induction xs as [|x xs IH]; simpl.
  - destruct (traverse f ys); reflexivity.
  - destruct (f x) as [b|e]; [|reflexivity]. simpl. rewrite IH.
    destruct (traverse f xs) as [bs|e]; [|reflexivity]. simpl.
    destruct (traverse f ys); reflexivity.
Qed.

Lemma score_app (p : params) (xs ys : list trigram) :
  score p (xs ++ ys) =
  rbind (score p xs) (fun a => rbind (score p ys) (fun b => Ok (a ++ b))).
Proof.
  unfold score, flattened_embeds. rewrite traverse_app.
  match goal with
  | |- context [traverse ?f xs] =>
      destruct (traverse f xs) as [fx|e]; [|reflexivity]; simpl;
      destruct (traverse f ys) as [fy|e']; [|reflexivity]; simpl
  end.
  unfold output_layer, hidden_layer, affine. rewrite !map_app. reflexivity.
Qed.

(** Scoring is item by item: on variables that are there, the pass over
    a batch put together from two is the pass over the one followed by
    the pass over the other (the first error wins), so the scores of an
    item do not depend on the batch it comes in. *)
Theorem shared_network_app (vars : gmap string (tensor F)) (p : params)
    (xs ys : list trigram) :
  holds vars p ->
  shared_network (xs ++ ys) vars =
  rbind (shared_network xs vars) (fun '(a, _) =>
  rbind (shared_network ys vars) (fun '(b, _) => Ok (a ++ b, vars))).
Proof.
  intros Hp. rewrite !(shared_network_reuse vars p) by exact Hp.
  rewrite score_app.
  destruct (score p xs) as [a|e]; [|reflexivity]. simpl.
  destruct (score p ys) as [b|e]; reflexivity.
Qed.

(** What a mode gets: TRAIN a loss and the optimizer's step on it with
    the learning rate, EVAL a loss only, PREDICT the scores of the
    original batch only, whatever the labels are. *)
Theorem model_fn_modes (mode : ModeKeys) (features : Features)
    (labels : list Z) (spec : EstimatorSpec F) :
  model_fn mode features labels = Ok spec ->
  spec_mode spec = mode /\
  match mode with
  | TRAIN =>
      predictions spec = None /\
      exists l, loss spec = Some l /\
                train_op spec = Some (Minimize learning_rate l)
  | EVAL =>
      predictions spec = None /\ train_op spec = None /\
      exists l, loss spec = Some l
  | PREDICT =>
      loss spec = None /\ train_op spec = None /\
      (exists O vars,
         shared_network (original features) ∅ = Ok (O, vars) /\
         predictions spec = Some O) /\
      forall labels', model_fn PREDICT features labels' = Ok spec
  end.
Proof.
  unfold model_fn.
  destruct (shared_network (original features) ∅) as [[O vars]|e];
    [|discriminate]. simpl.
  destruct (column 0 O) as [so0|e]; [|discriminate]. simpl.
  destruct (column 1 O) as [so1|e]; [|discriminate]. simpl.
  destruct (shared_network (corrupted features) vars) as [[C vars']|e];
    [|discriminate]. simpl.
  destruct (column 0 C) as [sc0|e]; [|discriminate]. simpl.
  destruct (column 1 C) as [sc1|e]; [|discriminate]. simpl.
  destruct mode; simpl.
  - destruct (joint_loss alpha labels so0 so1 sc0 sc1) as [l|e]; [|discriminate].
    simpl. intros [= <-]. simpl. repeat split. exists l. split; reflexivity.
  - destruct (joint_loss alpha labels so0 so1 sc0 sc1) as [l|e]; [|discriminate].
    simpl. intros [= <-]. simpl. repeat split. exists l. reflexivity.
  - intros [= <-]. simpl. repeat split. exists O, vars. split; reflexivity.
Qed.

Lemma joint_loss_same_length (labels : list Z)
    (syn_o sent_o syn_c sent_c : list F) :
  length sent_o = length labels ->
  length sent_c = length labels ->
  length syn_o = length syn_c ->
  exists l, joint_loss alpha labels syn_o sent_o syn_c sent_c = Ok l.
Proof.
  intros Ho Hc Hs. unfold joint_loss.
  rewrite !elementwise_same_length
    by (rewrite ?length_map, ?length_zip_with; lia).
  simpl.
  rewrite !elementwise_same_length
    by (rewrite ?length_map, ?length_zip_with, ?length_map; lia).
  simpl. eexists. reflexivity.
Qed.

Lemma model_fn_returns (mode : ModeKeys) (features : Features)
    (labels : list Z) :
  initial_embedding_fits ->
  ids_in_range (original features) ->
  ids_in_range (corrupted features) ->
  length (original features) = length labels ->
  length (corrupted features) = length labels ->
  exists spec,
    model_fn mode features labels = Ok spec /\
    (mode <> PREDICT -> exists l, loss spec = Some l) /\
    (mode = PREDICT ->
     exists O, predictions spec = Some O /\
               length O = length (original features)).
Proof.
  intros Hfit Ho Hc Hlo Hlc.
  pose proof (created_embeddings_length Hfit) as HE.
  destruct (flattened_embeds_in_range _ _ HE Ho) as (flat_o & Hfo & Hflo).
  destruct (flattened_embeds_in_range _ _ HE Hc) as (flat_c & Hfc & Hflc).
  destruct (output_layer_rows created (hidden_layer created flat_o)
              created_two_outputs) as (so & Hso & Hlso).
  destruct (output_layer_rows created (hidden_layer created flat_c)
              created_two_outputs) as (sc & Hsc & Hlsc).
  unfold hidden_layer, affine in Hlso, Hlsc. rewrite length_map in Hlso, Hlsc.
  assert (Hscore_o : score created (original features) = Ok (map score_row so)).
  { unfold score. rewrite Hfo. simpl. rewrite Hso. reflexivity. }
  assert (Hscore_c : score created (corrupted features) = Ok (map score_row sc)).
  { unfold score. rewrite Hfc. simpl. rewrite Hsc. reflexivity. }
  rewrite (model_fn_scored mode features labels so sc Hfit Hscore_o Hscore_c).
  destruct (joint_loss_same_length labels (map fst so) (map snd so)
              (map fst sc) (map snd sc)) as (l & Hl);
    try (rewrite !length_map; lia).
  destruct mode; rewrite ?Hl; simpl; eexists; (split; [reflexivity|]); split;
    try (intros _; exists l; reflexivity);
    try (intros Hm; discriminate Hm);
    try (intros Hm; contradiction).
  intros _. exists (map score_row so). split; [reflexivity|].
  rewrite length_map. lia.
Qed.

(** [model_fn] returns on every batch of vocabulary ids that comes with
    one label per item: both passes go through and so does, in TRAIN
    and EVAL, the loss; PREDICT gets one row of scores per item. *)
Theorem model_fn_accepts (mode : ModeKeys) (features : Features)
    (labels : list Z) :
  initial_embedding_fits ->
  ids_in_range (original features) ->
  ids_in_range (corrupted features) ->
  length (original features) = length labels ->
  length (corrupted features) = length labels ->
  exists spec,
    model_fn mode features labels = Ok spec /\
    (mode <> PREDICT -> exists l, loss spec = Some l) /\
    (mode = PREDICT ->
     exists O, predictions spec = Some O /\
               length O = length (original features)).
Proof.
  exact (model_fn_returns mode features labels).
Qed.

End Model.

(** *** Exact arithmetic: the rationals in lowest terms *)

Definition Qc_of_Z (z : Z) : Qcanon.Qc :=
  Qcanon.Q2Qc (QArith_base.inject_Z z).

Definition Qc_maximum (x y : Qcanon.Qc) : Qcanon.Qc :=
  match Qcanon.Qccompare x y with
  | Lt => y
  | _ => x
  end.

Definition Qc_minimum (x y : Qcanon.Qc) : Qcanon.Qc :=
  match Qcanon.Qccompare x y with
  | Lt => x
  | _ => y
  end.

#[export] Instance Qc_scalar : Scalar Qcanon.Qc :=
  {| cast := Qc_of_Z;
     add := Qcanon.Qcplus;
     sub := Qcanon.Qcminus;
     mul := Qcanon.Qcmult;
     div := Qcanon.Qcdiv;
     maximum := Qc_maximum;
     minimum := Qc_minimum;
     le := Qcanon.Qcle |}.

(** A small network on the rationals: two words, one embedding
    dimension, two hidden units; element [(i, j)] of every variable
    starts at [(i + j) / 2]. *)
Definition halves (_ : string) (i j : nat) : Qcanon.Qc :=
  Qcanon.Q2Qc (QArith_base.Qmake (Z.of_nat (i + j)) 2).

Definition small_model_fn :=
  model_fn halves 2 (Qcanon.Q2Qc (QArith_base.Qmake 1 2)) 2 (Qc_of_Z 1) 1 None.

Definition small_features : Features :=
  {| original := [(0, 0, 0)]; corrupted := [(0, 1, 0)] |}.

(** The batch of one sample that the two passes of the small network
    score, labelled 1:
    [(orig_syn, orig_sent) = (1/4, 1)], [(corr_syn, corr_sent) = (1/2, 13/8)]. *)
Definition small_batch : list (scored Qcanon.Qc) :=
  match score 2 (created halves 2 2 1 None) (original small_features),
        score 2 (created halves 2 2 1 None) (corrupted small_features) with
  | Ok [[a; b]], Ok [[c; d]] =>
      [{| orig_syn := a; orig_sent := b; corr_syn := c; corr_sent := d;
          label := 1 |}]
  | _, _ => []
  end.

Example small_batch_scores :
  map (fun s => map Qcanon.this [orig_syn s; orig_sent s; corr_syn s; corr_sent s])
      small_batch =
  [[QArith_base.Qmake 1 4; QArith_base.Qmake 1 1;
    QArith_base.Qmake 1 2; QArith_base.Qmake 13 8]].
Proof. vm_compute. reflexivity. Qed.

Example small_loss :
  match small_model_fn EVAL small_features [1] with
  | Ok spec => option_map Qcanon.this (loss spec)
  | Raise _ => None
  end = Some (QArith_base.Qmake 23 16).
Proof. vm_compute. reflexivity. Qed.

Lemma model_fn_loss_spec_witness :
  exists spec,
    small_model_fn EVAL small_features (map label small_batch) = Ok spec /\
    loss spec =
      Some (batch_loss (Qcanon.Q2Qc (QArith_base.Qmake 1 2)) small_batch).
Proof.
  refine (proj2 (model_fn_loss_spec halves 2
                   (Qcanon.Q2Qc (QArith_base.Qmake 1 2)) 2 (Qc_of_Z 1) 1 None
                   small_batch)
            EVAL small_features _ I _ _).
  - discriminate.
  - vm_compute. reflexivity.
  - vm_compute. reflexivity.
Defined.


Lemma shared_network_app_witness :
  shared_network halves 2 2 1 None ([(0, 0, 0)] ++ [(0, 1, 0)])
    (created_vars halves 2 2 1 None) =
  rbind (shared_network halves 2 2 1 None [(0, 0, 0)]
           (created_vars halves 2 2 1 None)) (fun '(a, _) =>
  rbind (shared_network halves 2 2 1 None [(0, 1, 0)]
           (created_vars halves 2 2 1 None)) (fun '(b, _) =>
  Ok (a ++ b, created_vars halves 2 2 1 None))).
Proof.
  exact (shared_network_app halves 2 2 1 None
           (created_vars halves 2 2 1 None) (created halves 2 2 1 None)
           [(0, 0, 0)] [(0, 1, 0)] (created_holds halves 2 2 1 None)).
Defined.

Lemma model_fn_modes_witness :
  exists spec l,
    small_model_fn TRAIN small_features [1] = Ok spec /\
    spec_mode spec = TRAIN /\ predictions spec = None /\
    loss spec = Some l /\ train_op spec = Some (Minimize (Qc_of_Z 1) l).
Proof.
  destruct (small_model_fn TRAIN small_features [1]) as [spec|e] eqn:Hrun.
  - destruct (model_fn_modes _ _ _ _ _ _ _ _ _ _ spec Hrun)
      as (Hm & Hp & l & Hl & Ht).
    exists spec, l. split; [reflexivity|]. split; [exact Hm|].
    split; [exact Hp|]. split; [exact Hl|exact Ht].
  - exfalso. vm_compute in Hrun. discriminate Hrun.
Defined.

Lemma model_fn_accepts_witness :
  exists spec,
    small_model_fn EVAL small_features [1] = Ok spec /\
    (EVAL <> PREDICT -> exists l, loss spec = Some l) /\
    (EVAL = PREDICT ->
     exists O, predictions spec = Some O /\
               length O = length (original small_features)).
Proof.
  refine (model_fn_accepts halves 2 (Qcanon.Q2Qc (QArith_base.Qmake 1 2)) 2
            (Qc_of_Z 1) 1 None EVAL small_features [1] _ _ _ _ _).
  - exact I.
  - unfold ids_in_range. simpl. repeat constructor; lia.
  - unfold ids_in_range. simpl. repeat constructor; lia.
  - reflexivity.
  - reflexivity.
Defined.

(** *** The arithmetic of [tf.float32]

    IEEE 754 binary32 (24 bits of precision, infinities at exponent
    128), rounding to nearest even, as the standard library specifies
    it.  [tf.maximum] and [tf.minimum] are the element kernels
    [(x < y) ? y : x] and [(y < x) ? y : x]: a comparison with NaN is
    false, so a NaN in first place is returned. *)

Definition float32 : Type := SpecFloat.spec_float.

Definition float32_of_Z (z : Z) : float32 :=
  SpecFloat.binary_normalize 24 128 z 0 false.

Definition float32_maximum (x y : float32) : float32 :=
  if SpecFloat.SFltb x y then y else x.

Definition float32_minimum (x y : float32) : float32 :=
  if SpecFloat.SFltb y x then y else x.

#[export] Instance float32_scalar : Scalar float32 :=
  {| cast := float32_of_Z;
     add := SpecFloat.SFadd 24 128;
     sub := SpecFloat.SFsub 24 128;
     mul := SpecFloat.SFmul 24 128;
     div := SpecFloat.SFdiv 24 128;
     maximum := float32_maximum;
     minimum := float32_minimum;
     le := fun x y => SpecFloat.SFleb x y = true |}.

Definition NaN : float32 := SpecFloat.S754_nan.




(** The largest finite number, [(2 - 2^-23) * 2^127]. *)
Definition max_float : float32 := SpecFloat.S754_finite false 16777215 104.

(** An initial embedding of another shape: four elements in one row fill
    a two by two variable; three are padded with the last; five are
    refused. *)
Example constant_initializer_shapes :
  constant_initializer [[cast 1; cast 2; cast 3; cast 4]] 2 2 =
    Ok [[cast 1; cast 2]; [cast 3; cast 4 : float32]] /\
  constant_initializer [[cast 1; cast 2; cast 3]] 2 2 =
    Ok [[cast 1; cast 2]; [cast 3; cast 3 : float32]] /\
  constant_initializer [[cast 1; cast 2; cast 3; cast 4; cast 5 : float32]] 2 2 =
    Raise ValueError.
Proof. repeat split. Qed.

(** **** Zero times a number, and a number plus zero *)




Lemma add_NaN_l (x : float32) : add NaN x = NaN.
Proof. reflexivity. Qed.



(** **** The order *)

Lemma SFcompare_antisym (x y : float32) :
  SpecFloat.SFcompare y x = option_map CompOpp (SpecFloat.SFcompare x y).
Proof.
  destruct x as [sx|sx| |sx mx ex], y as [sy|sy| |sy my ey]; simpl;
    try reflexivity;
    try (destruct sx; reflexivity); try (destruct sy; reflexivity);
    try (destruct sx, sy; reflexivity).
  destruct sx, sy; simpl; try reflexivity;
    rewrite (Z.compare_antisym ex ey);
    destruct (ex ?= ey)%Z; simpl; try reflexivity;
    rewrite (Pos.compare_cont_antisym mx my Eq); reflexivity.
Qed.

Lemma SFcompare_not_NaN (x y : float32) :
  x <> NaN -> y <> NaN -> exists c, SpecFloat.SFcompare x y = Some c.
Proof.
  intros Hx Hy.
  destruct x as [sx|sx| |sx mx ex]; try contradiction;
    destruct y as [sy|sy| |sy my ey]; try contradiction; simpl;
    eexists; reflexivity.
Qed.

(** Of two numbers, one that is not below the other is above or equal. *)
Lemma SFltb_false_SFleb (x y : float32) :
  x <> NaN -> y <> NaN ->
  SpecFloat.SFltb x y = false -> SpecFloat.SFleb y x = true.
Proof.
  intros Hx Hy. unfold SpecFloat.SFltb, SpecFloat.SFleb.
  rewrite (SFcompare_antisym x y).
  destruct (SFcompare_not_NaN x y Hx Hy) as [c ->]. simpl.
  destruct c; simpl; congruence.
Qed.

Lemma SFltb_true_SFleb (x y : float32) :
  SpecFloat.SFltb x y = true -> SpecFloat.SFleb x y = true.
Proof.
  unfold SpecFloat.SFltb, SpecFloat.SFleb.
  destruct (SpecFloat.SFcompare x y) as [[| |]|]; congruence.
Qed.

(** **** The clip *)

Lemma clip_by_value_NaN :
  clip_by_value NaN (cast (-1)) (cast 1) = NaN.
Proof. reflexivity. Qed.

Lemma clip_by_value_bounds (x : float32) :
  x <> NaN -> in_unit_interval (clip_by_value x (cast (-1)) (cast 1)).
Proof.
  intros Hx.
  change (SpecFloat.SFleb (float32_of_Z (-1))
            (float32_maximum (float32_minimum x (float32_of_Z 1))
               (float32_of_Z (-1))) = true /\
          SpecFloat.SFleb
            (float32_maximum (float32_minimum x (float32_of_Z 1))
               (float32_of_Z (-1)))
            (float32_of_Z 1) = true).
  unfold float32_maximum, float32_minimum.
  destruct (SpecFloat.SFltb (float32_of_Z 1) x) eqn:Hhi.
  - split; reflexivity.
  - destruct (SpecFloat.SFltb x (float32_of_Z (-1))) eqn:Hlo.
    + split; reflexivity.
    + split.
      * apply SFltb_false_SFleb; [exact Hx|discriminate|exact Hlo].
      * apply SFltb_false_SFleb; [discriminate|exact Hx|exact Hhi].
Qed.

(** **** The mixing weight at its ends *)






(** **** The layers of the scorer *)

Definition is_nan (x : float32) : bool :=
  match x with
  | SpecFloat.S754_nan => true
  | _ => false
  end.

(** What the clip makes of a pre-activation. *)
Definition clipped (y : float32) : Prop :=
  if is_nan y then clip_by_value y (cast (-1)) (cast 1) = NaN
  else in_unit_interval (clip_by_value y (cast (-1)) (cast 1)).

Lemma clip_by_value_clipped (y : float32) : clipped y.
Proof.
  unfold clipped. destruct y; simpl is_nan;
    try (apply clip_by_value_bounds; discriminate).
  apply clip_by_value_NaN.
Qed.

Lemma NaN_outside : ~ in_unit_interval NaN.
Proof. intros [H _]. discriminate H. Qed.

Section Float32Model.

Variable initial : string -> nat -> nat -> float32.
Variable vocabulary_size : nat.
Variable alpha : float32.
Variable hidden_units : nat.
Variable learning_rate : float32.
Variable embedding_size : nat.
Variable initial_embedding : option (list (list float32)).

(** C9 as the code has it, on [tf.float32]: on batches of vocabulary
    ids both passes return, and what they return is, item by item, the
    affine map of the hidden values, which are the clip to [-1, 1] of the
    affine map of the flattened embeddings.  A hidden value lies between
    -1 and 1 unless its pre-activation is NaN, and then it is NaN.  The
    output has two entries per item, which [model_fn] reads as the
    syntactic score (the first) and the sentiment score (the second). *)
Theorem shared_network_layers (mode : ModeKeys) (features : Features)
    (labels : list Z) :
  initial_embedding_fits vocabulary_size embedding_size initial_embedding ->
  ids_in_range vocabulary_size (original features) ->
  ids_in_range vocabulary_size (corrupted features) ->
  let p := created initial vocabulary_size hidden_units embedding_size
             initial_embedding in
  let vars := created_vars initial vocabulary_size hidden_units embedding_size
                initial_embedding in
  let pre := fun x =>
    zip_with add (matvec x (hidden_kernel p) hidden_units) (hidden_bias p) in
  let hidden := fun x =>
    map (fun y => clip_by_value y (cast (-1)) (cast 1)) (pre x) in
  let output := fun x =>
    zip_with add (matvec (hidden x) (output_kernel p) 2) (output_bias p) in
  exists flat_o flat_c so sc,
    flattened_embeds (word_embeddings p) (original features) = Ok flat_o /\
    flattened_embeds (word_embeddings p) (corrupted features) = Ok flat_c /\
    shared_network initial vocabulary_size hidden_units embedding_size
      initial_embedding (original features) ∅ = Ok (map output flat_o, vars) /\
    shared_network initial vocabulary_size hidden_units embedding_size
      initial_embedding (corrupted features) vars = Ok (map output flat_c, vars) /\
    Forall (fun x => Forall clipped (pre x)) (flat_o ++ flat_c) /\
    Forall (fun x => Forall (fun h => in_unit_interval h \/ h = NaN) (hidden x))
      (flat_o ++ flat_c) /\
    map output flat_o = map score_row so /\
    map output flat_c = map score_row sc /\
    length so = length (original features) /\
    length sc = length (corrupted features) /\
    model_fn initial vocabulary_size alpha hidden_units learning_rate
      embedding_size initial_embedding mode features labels =
      match mode with
      | PREDICT => Ok (spec_of learning_rate PREDICT (map score_row so) (cast 0))
      | _ =>
          rbind (joint_loss alpha labels (map fst so) (map snd so)
                   (map fst sc) (map snd sc))
                (fun l => Ok (spec_of learning_rate mode (map score_row so) l))
      end.
Proof.
  intros Hfit Ho Hc p vars pre hidden output.
  pose proof (created_embeddings_length initial vocabulary_size hidden_units
                embedding_size initial_embedding Hfit) as HE.
  fold p in HE.
  destruct (flattened_embeds_in_range vocabulary_size _ _ HE Ho)
    as (flat_o & Hfo & Hlo).
  destruct (flattened_embeds_in_range vocabulary_size _ _ HE Hc)
    as (flat_c & Hfc & Hlc).
  assert (Hout : forall flat,
            output_layer p (hidden_layer hidden_units p flat) = map output flat).
  { intros flat. unfold output_layer, hidden_layer, affine.
    rewrite map_map. apply map_ext. intros x. apply map_id. }
  destruct (output_layer_rows p (hidden_layer hidden_units p flat_o)
              (created_two_outputs initial vocabulary_size hidden_units
                 embedding_size initial_embedding)) as (so & Hso & Hlso).
  destruct (output_layer_rows p (hidden_layer hidden_units p flat_c)
              (created_two_outputs initial vocabulary_size hidden_units
                 embedding_size initial_embedding)) as (sc & Hsc & Hlsc).
  rewrite Hout in Hso, Hsc.
  unfold hidden_layer, affine in Hlso, Hlsc. rewrite length_map in Hlso, Hlsc.
  assert (Hscore_o : score hidden_units p (original features) = Ok (map output flat_o)).
  { unfold score. rewrite Hfo. simpl. rewrite Hout. reflexivity. }
  assert (Hscore_c : score hidden_units p (corrupted features) = Ok (map output flat_c)).
  { unfold score. rewrite Hfc. simpl. rewrite Hout. reflexivity. }
  exists flat_o, flat_c, so, sc.
  split; [exact Hfo|]. split; [exact Hfc|].
  split.
  { rewrite (shared_network_first _ _ _ _ _ _ Hfit). fold p. rewrite Hscore_o.
    reflexivity. }
  split.
  { rewrite (shared_network_reuse _ _ _ _ _ vars p).
    - rewrite Hscore_c. reflexivity.
    - apply created_holds. }
  split.
  { apply Forall_forall. intros x _. apply Forall_forall. intros y _.
    apply clip_by_value_clipped. }
  split.
  { apply Forall_forall. intros x _. apply Forall_forall. intros h Hh.
    apply list_elem_of_In, in_map_iff in Hh. destruct Hh as (y & <- & _).
    pose proof (clip_by_value_clipped y) as Hy. unfold clipped in Hy.
    destruct (is_nan y); [right|left]; exact Hy. }
  split; [exact Hso|]. split; [exact Hsc|].
  split; [lia|]. split; [lia|].
  apply model_fn_scored.
  - exact Hfit.
  - fold p. rewrite Hscore_o, Hso. reflexivity.
  - fold p. rewrite Hscore_c, Hsc. reflexivity.
Qed.

End Float32Model.

(** A network whose parameters are finite and whose hidden pre-activation
    overflows: one word with the embedding [max_float], one hidden unit
    with the weights 2, -2 and 0. *)
Definition overflowing (name : string) (i j : nat) : float32 :=
  if String.eqb name "shared_network/hidden/kernel" then
    match i with
    | O => cast 2
    | S O => cast (-2)
    | _ => cast 0
    end
  else if String.eqb name "shared_network/output/kernel" then cast 1
  else cast 0.

Lemma hidden_value_NaN :
  flattened_embeds
    (word_embeddings (created overflowing 1 1 1 (Some [[max_float]])))
    [(0, 0, 0)] = Ok [[max_float; max_float; max_float]] /\
  hidden_kernel (created overflowing 1 1 1 (Some [[max_float]])) =
    [[cast 2]; [cast (-2)]; [cast 0]] /\
  hidden_bias (created overflowing 1 1 1 (Some [[max_float]])) = [cast 0] /\
  hidden_layer 1 (created overflowing 1 1 1 (Some [[max_float]]))
    [[max_float; max_float; max_float]] = [[NaN]] /\
  ~ in_unit_interval NaN /\
  shared_network overflowing 1 1 1 (Some [[max_float]]) [(0, 0, 0)] ∅ =
    Ok ([[NaN; NaN]], created_vars overflowing 1 1 1 (Some [[max_float]])).
Proof.
  split; [reflexivity|]. split; [reflexivity|]. split; [reflexivity|].
  split; [vm_compute; reflexivity|]. split; [exact NaN_outside|].
  rewrite shared_network_first by reflexivity. vm_compute. reflexivity.
Qed.

(** A small network on [tf.float32]: two words, one embedding dimension,
    two hidden units; element [(i, j)] of every variable starts at
    [i + j]. *)
Definition sums (_ : string) (i j : nat) : float32 :=
  float32_of_Z (Z.of_nat (i + j)).

Example sums_scores :
  score 2 (created sums 2 2 1 None) [(0, 0, 0); (0, 1, 0)] =
  Ok [[cast 1; cast 3]; [cast 1; cast 4]].
Proof. vm_compute. reflexivity. Qed.

Lemma shared_network_layers_witness :
  exists so sc : list (float32 * float32),
    length so = 1%nat /\ length sc = 1%nat /\
    model_fn sums 2 (cast 1) 2 (cast 1) 1 None PREDICT small_features [1] =
      Ok {| spec_mode := PREDICT; predictions := Some (map score_row so);
            loss := None; train_op := None |}.
Proof.
  destruct (shared_network_layers sums 2 (cast 1) 2 (cast 1) 1 None
              PREDICT small_features [1])
    as (flat_o & flat_c & so & sc & _ & _ & _ & _ & _ & _ & _ & _ & Ho & Hc & Hm).
  - exact I.
  - unfold ids_in_range. simpl. repeat constructor; lia.
  - unfold ids_in_range. simpl. repeat constructor; lia.
  - exists so, sc. split; [exact Ho|]. split; [exact Hc|exact Hm].
Defined.

End Network.

(** ** The input pipeline *)

Module Pipeline.

Import Py Rng Sampling.

(** What iterating a dataset gives: its items up to the end (with the
    state the generator of random numbers is left in), or the items
    handed out before an error ends the iteration, or the items handed
    out before a call that does not return. *)
Inductive fed (A : Type) : Type :=
| Fed (items : list A) (rest : list Z)
| Broken (items : list A) (e : exn)
| Blocked (items : list A).
Arguments Fed {A} items rest.
Arguments Broken {A} items e.
Arguments Blocked {A} items.

(** An element of the dataset: [from_generator] takes a sample whose two
    trigrams make up the shape [[2, 3]], with its label. *)
Definition element : Type := (Network.trigram * Network.trigram) * Z.

Definition to_element (s : sample_t) : result element :=
  match s with
  | (([a; b; c], [a'; b'; c']), l) => Ok (((a, b, c), (a', b', c')), l)
  | _ => Raise InvalidArgumentError
  end.

(** The samples converted one after the other, up to the first that has
    not the declared shape. *)
Fixpoint elements (out : list sample_t) : list element * option exn :=
  match out with
  | [] => ([], None)
  | s :: out' =>
      match to_element s with
      | Ok el => let '(els, err) := elements out' in (el :: els, err)
      | Raise e => ([], Some e)
      end
  end.

(** The error that is reported when the generator function raises: the
    runtime turns a [ValueError] into an [InvalidArgumentError] and an
    exception it has no code for into an [UnknownError]. *)
Definition py_func_error (e : exn) : exn :=
  match e with
  | ValueError => InvalidArgumentError
  | _ => UnknownError
  end.

(** What [from_generator] makes of one run of the generator function. *)
Definition from_generator (out : list sample_t) (e : ending) : fed element :=
  match elements out with
  | (els, Some err) => Broken els err
  | (els, None) =>
      match e with
      | Finished rest => Fed els rest
      | Failed err => Broken els (py_func_error err)
      | Retrying => Blocked els
      end
  end.

(** What [get_next] and the two slices make of a group of elements:
    [features[:, 0]], [features[:, 1]] and the labels. *)
Record batch : Type := {
  features : Network.Features;
  labels : list Z
}.

Definition to_batch (group : list element) : batch :=
  {| features :=
       {| Network.original := map (fun el => fst (fst el)) group;
          Network.corrupted := map (fun el => snd (fst el)) group |};
     labels := map snd group |}.

Section Dataset.

Context {A : Type}.

(** [Dataset.shuffle(buffer_size)]: a buffer is filled with the first
    items; each item handed out is picked from the buffer and replaced
    by the next item of the input, while there is one.  [picks] stands
    for the random choices. *)
Fixpoint shuffle_out (n : nat) (picks : nat -> nat) (step : nat)
    (buffer upstream : list A) : list A :=
  match n with
  | O => []
  | S n' =>
      let i := (picks step mod length buffer)%nat in
      match buffer !! i with
      | None => []
      | Some x =>
          match upstream with
          | [] => x :: shuffle_out n' picks (S step) (delete i buffer) []
          | y :: upstream' =>
              x :: shuffle_out n' picks (S step) (<[i := y]> buffer) upstream'
          end
      end
  end.

Definition shuffle (buffer_size : nat) (picks : nat -> nat) (l : list A)
    : list A :=
  shuffle_out (length l) picks 0 (take buffer_size l) (drop buffer_size l).

(** [Dataset.batch(batch_size)]: consecutive groups of [batch_size]
    items, the last one with what is left. *)
Fixpoint groups_of (n : nat) (batch_size : nat) (l : list A) : list (list A) :=
  match n with
  | O => []
  | S n' =>
      match l with
      | [] => []
      | _ :: _ => take batch_size l :: groups_of n' batch_size (drop batch_size l)
      end
  end.

Definition group (batch_size : nat) (l : list A) : list (list A) :=
  groups_of (length l) batch_size l.

(** The stages on an input that may end early.  [shuffle] hands out an
    item only when its buffer is full or the input is at its end, so it
    holds back [buffer_size - 1] of the items it got before an error;
    [batch] hands out whole batches only before an error. *)
Definition shuffle_stage (buffer_size : nat) (picks : nat -> nat)
    (r : fed A) : fed A :=
  let held l :=
    take (length l - (buffer_size - 1)) (shuffle buffer_size picks l) in
  match r with
  | Fed l rest => Fed (shuffle buffer_size picks l) rest
  | Broken l e => Broken (held l) e
  | Blocked l => Blocked (held l)
  end.

Definition batch_stage {B : Type} (make : list A -> B) (batch_size : nat)
    (r : fed A) : fed B :=
  let whole l :=
    map make (take (length l / batch_size) (group batch_size l)) in
  match r with
  | Fed l rest => Fed (map make (group batch_size l)) rest
  | Broken l e => Broken (whole l) e
  | Blocked l => Blocked (whole l)
  end.





End Dataset.

Section InputFn.

(** The collaborators of the generator. *)
Variable Vocab : Type.
Variable len : Vocab -> nat.
Variable lookup_ids : Vocab -> list string -> list Z.
Variable tokenize_tweet : string -> list string.
Variable int : string -> option Z.

(** One iteration of the dataset made by [from_generator]: [gen] loops
    over the generator object from the frame it is in, and leaves it in
    another.  The number of calls of [__next__] is bounded by what the
    frame has still to yield (the bound is never reached). *)
Definition pass (self : InputGenerator Vocab) (f : frame) (draws : list Z)
    : fed element * frame :=
  match for_each Vocab len lookup_ids tokenize_tweet int
          (S (remaining Vocab tokenize_tweet self f)) self f draws with
  | Some (out, e, f') => (from_generator out e, f')
  | None => (Blocked [], f)
  end.

(** [shuffle(buffer_size=10000)] when asked for, then
    [repeat(num_epochs)]: every epoch calls [gen] again, on the same
    generator object, in the frame the epoch before has left it in. *)
Fixpoint repeat_passes (num_epochs epoch : nat) (shuffle0 : bool)
    (picks : nat -> nat -> nat) (self : InputGenerator Vocab) (f : frame)
    (draws : list Z) : fed element :=
  match num_epochs with
  | O => Fed [] draws
  | S n =>
      let '(r, f') := pass self f draws in
      match (if shuffle0 then shuffle_stage (Z.to_nat 10000) (picks epoch) r
             else r) with
      | Fed els rest =>
          match repeat_passes n (S epoch) shuffle0 picks self f' rest with
          | Fed more rest' => Fed (els ++ more) rest'
          | Broken more e => Broken (els ++ more) e
          | Blocked more => Blocked (els ++ more)
          end
      | Broken els e => Broken els e
      | Blocked els => Blocked els
      end
  end.

(** [input_fn] on the rows that [csv.reader] gives for the file, with a
    number of epochs (repeating without end, [num_epochs=None], is left
    out): the batches that evaluating the returned tensors time after
    time gives.  A batch size of zero is refused when the iteration
    starts. *)
Definition input_fn (csv : list (list string)) (vocabulary : Vocab)
    (ngram0 : nat) (shuffle0 : bool) (num_epochs batch_size : nat)
    (csv_columns0 : option (list string)) (picks : nat -> nat -> nat)
    (draws : list Z) : result (fed batch) :=
  rbind (init csv vocabulary ngram0 csv_columns0) (fun input_generator =>
  Ok (if (batch_size =? 0)%nat then Broken [] InvalidArgumentError
      else
        batch_stage to_batch batch_size
          (repeat_passes num_epochs 0 shuffle0 picks input_generator
             (samples Vocab input_generator) draws))).

(** *** Epochs *)

(** A pass gives what is still to come from the frame it starts in, and
    leaves the generator object closed. *)
Lemma pass_run (self : InputGenerator Vocab) (f : frame) (draws : list Z) :
  pass self f draws =
  (from_generator
     (run_frame Vocab len lookup_ids tokenize_tweet int self f draws).1
     (run_frame Vocab len lookup_ids tokenize_tweet int self f draws).2,
   Closed).
Proof.
  unfold pass. rewrite for_each_remaining. reflexivity.
Qed.

Lemma pass_closed (self : InputGenerator Vocab) (draws : list Z) :
  pass self Closed draws = (Fed [] draws, Closed).
Proof.
  rewrite pass_run. reflexivity.
Qed.

Lemma repeat_passes_closed (shuffle0 : bool) (picks : nat -> nat -> nat)
    (self : InputGenerator Vocab) :
  forall (n epoch : nat) (draws : list Z),
    repeat_passes n epoch shuffle0 picks self Closed draws = Fed [] draws.
Proof.
  induction n as [|n IH]; intros epoch draws; [reflexivity|].
  cbn [repeat_passes]. rewrite pass_closed.
  destruct shuffle0; cbn [shuffle_stage]; rewrite IH; reflexivity.
Qed.

Lemma repeat_passes_first (shuffle0 : bool) (picks : nat -> nat -> nat)
    (self : InputGenerator Vocab) (f : frame) (n epoch : nat) (draws : list Z) :
  repeat_passes (S n) epoch shuffle0 picks self f draws =
  repeat_passes 1 epoch shuffle0 picks self f draws.
Proof.
  cbn [repeat_passes]. rewrite pass_run.
  destruct (if shuffle0 then _ else _) as [els rest|els e|els]; try reflexivity.
  rewrite repeat_passes_closed. reflexivity.
Qed.

Lemma input_fn_first_epoch (csv : list (list string)) (vocabulary : Vocab)
    (ngram0 : nat) (shuffle0 : bool) (n batch_size : nat)
    (csv_columns0 : option (list string)) (picks : nat -> nat -> nat)
    (draws : list Z) :
  input_fn csv vocabulary ngram0 shuffle0 (S n) batch_size csv_columns0
    picks draws =
  input_fn csv vocabulary ngram0 shuffle0 1 batch_size csv_columns0
    picks draws.
Proof.
  unfold input_fn.
  destruct (init csv vocabulary ngram0 csv_columns0) as [self|e]; [|reflexivity].
  cbn [rbind]. rewrite repeat_passes_first. reflexivity.
Qed.

(** The generator object is shared by all epochs.  Whatever frame a pass
    starts in, it leaves the object closed, and a pass over the closed
    object hands out nothing and draws nothing; so asking for more than
    one epoch gives the batches of one. *)
Theorem input_fn_epochs (csv : list (list string)) (vocabulary : Vocab)
    (ngram0 : nat) (shuffle0 : bool) (n batch_size : nat)
    (csv_columns0 : option (list string)) (picks : nat -> nat -> nat)
    (draws : list Z) :
  input_fn csv vocabulary ngram0 shuffle0 (S n) batch_size csv_columns0
    picks draws =
  input_fn csv vocabulary ngram0 shuffle0 1 batch_size csv_columns0
    picks draws /\
  (forall self f draws', snd (pass self f draws') = Closed) /\
  (forall self draws', pass self Closed draws' = (Fed [] draws', Closed)).
Proof.
  split; [apply input_fn_first_epoch|]. split.
  - intros self f draws'. rewrite pass_run. reflexivity.
  - intros self draws'. apply pass_closed.
Qed.

(** *** Batches *)






(** *** From the generator to the model *)




Section Model.

Context {F : Type} `{Network.Scalar F}.

Variable initial : string -> nat -> nat -> F.
Variable alpha : F.
Variable hidden_units : nat.
Variable learning_rate : F.
Variable embedding_size : nat.
Variable initial_embedding : option (list (list F)).


End Model.

End InputFn.

(** *** A file of two rows, in batches of three *)

Definition two_rows : list (list string) := [good_bad_row; good_bad_row].

Definition all_good : element := (((0, 0, 0), (0, 1, 0)), 1).
Definition all_bad : element := (((1, 1, 1), (1, 0, 1)), 1).

(** Ids for the two words, every other word counting as the first. *)
Definition two_word_ids (_ : list string) (ws : list string) : list Z :=
  map (fun w => if String.eqb w "bad" then 1 else 0) ws.


Definition two_rows_fed (shuffle0 : bool) (num_epochs : nat) : result (fed batch) :=
  input_fn (list string) length two_word_ids blank_tokenizer decimal_int
    two_rows ["good"; "bad"] 1 shuffle0 num_epochs 3 (Some tweet_columns)
    (fun _ step => step) [1; 0; 1; 0].

Example two_rows_in_order :
  two_rows_fed false 10 =
  Ok (Fed [to_batch [all_good; all_bad; all_good]; to_batch [all_bad]] []).
Proof. vm_compute. reflexivity. Qed.

Example two_rows_shuffled :
  two_rows_fed true 10 =
  Ok (Fed [to_batch [all_good; all_good; all_bad]; to_batch [all_bad]] []).
Proof. vm_compute. reflexivity. Qed.

(** Ten epochs hand out what one does. *)
Example two_rows_epochs :
  two_rows_fed false 10 = two_rows_fed false 1 /\
  two_rows_fed true 10 = two_rows_fed true 1.
Proof. split; vm_compute; reflexivity. Qed.

(** A file whose second row has no integer for its sentiment, in batches
    of one: without shuffling the two samples of the first row are
    handed out before the error is reported; with shuffling they are
    still in the buffer then. *)
Definition broken_rows_fed (shuffle0 : bool) : result (fed batch) :=
  input_fn (list string) length two_word_ids blank_tokenizer decimal_int
    [good_bad_row; unlabelled_row] ["good"; "bad"] 1 shuffle0 10 1
    (Some tweet_columns) (fun _ step => step) [1; 0; 1; 0].

Example broken_rows_in_order :
  broken_rows_fed false =
  Ok (Broken [to_batch [all_good]; to_batch [all_bad]] InvalidArgumentError).
Proof. vm_compute. reflexivity. Qed.

Example broken_rows_shuffled :
  broken_rows_fed true = Ok (Broken [] InvalidArgumentError).
Proof. vm_compute. reflexivity. Qed.



End Pipeline.

(** ** The command line program *)

Module Main.

Import Py.

(** The parsed arguments that decide where the vocabulary comes from,
    and those handed on to the training. *)
Record Args : Type := {
  data : string;
  vocabulary : option string;
  batch_size : Z;
  epochs : Z;
  embedding_size : nat;
  initial_embeddings : option string;
  export_path : option string
}.

Section Program.

(** The collaborators: the preprocessing and vocabulary building of
    [Preprocessor] and [Embedding], [Embedding.load], [load_vocab], the
    estimator's training and the export of the trained matrix.  Each may
    fail on its files. *)
Variable Vocab : Type.
Variable Matrix : Type.
Variable columns : Matrix -> nat.
Variable build_vocabulary : string -> nat -> result Vocab.
Variable embedding_load : string -> result (Vocab * Matrix).
Variable load_vocab : string -> result Vocab.
Variable train : Vocab -> option Matrix -> nat -> Z -> Z -> result unit.
Variable export : Vocab -> string -> result unit.

(** What the program does, in order. *)
Inductive event : Type :=
| Print (message : string)
| BuildVocabulary (path : string)
| LoadEmbeddings (path : string)
| LoadVocabulary (path : string)
| Train (vocab : Vocab) (embedding_matrix : option Matrix) (size : nat)
| Export (path : string).

(** The [if] / [elif] / [else] that sets [vocab] and [embedding_matrix]. *)
Definition initialize (args : Args)
    : list event * result (Vocab * option Matrix) :=
  match vocabulary args, initial_embeddings args with
  | None, None =>
      ([Print "Building vocabulary from input data..."; BuildVocabulary (data args)],
       rbind (build_vocabulary (data args) (embedding_size args))
             (fun vocab => Ok (vocab, None)))
  | _, Some path =>
      ([Print "Loading embeddings from file..."; LoadEmbeddings path],
       rbind (embedding_load path)
             (fun '(vocab, embedding_matrix) => Ok (vocab, Some embedding_matrix)))
  | Some path, None =>
      ([Print "Loading vocabulary..."; LoadVocabulary path],
       rbind (load_vocab path) (fun vocab => Ok (vocab, None)))
  end.

Definition main (args : Args) : list event * result unit :=
  match initialize args with
  | (log, Raise e) => (log, Raise e)
  | (log, Ok (vocab, embedding_matrix)) =>
      let size :=
        match embedding_matrix with
        | Some m => columns m
        | None => embedding_size args
        end in
      let log := log ++ [Train vocab embedding_matrix size] in
      match train vocab embedding_matrix size (epochs args) (batch_size args) with
      | Raise e => (log, Raise e)
      | Ok _ =>
          match export_path args with
          | None => (log, Ok tt)
          | Some path => (log ++ [Export path], export vocab path)
          end
      end
  end.

Definition set_vocabulary (v : option string) (args : Args) : Args :=
  {| data := data args;
     vocabulary := v;
     batch_size := batch_size args;
     epochs := epochs args;
     embedding_size := embedding_size args;
     initial_embeddings := initial_embeddings args;
     export_path := export_path args |}.

(** C6 as the code has it: when an initial embedding is given, a
    vocabulary path given with it is not looked at; the program runs as
    it does without one: it loads the embedding file, takes vocabulary and
    matrix from it and goes on to train. *)
Theorem main_ignores_vocabulary (args : Args) (e : string) :
  initial_embeddings args = Some e ->
  main args = main (set_vocabulary None args) /\
  (initialize args).1 = [Print "Loading embeddings from file..."; LoadEmbeddings e] /\
  (forall vocab m,
     embedding_load e = Ok (vocab, m) ->
     initialize args =
       ([Print "Loading embeddings from file..."; LoadEmbeddings e],
        Ok (vocab, Some m)) /\
     In (Train vocab (Some m) (columns m)) (main args).1).
Proof.
  intros He.
  assert (Hinit : initialize args =
            ([Print "Loading embeddings from file..."; LoadEmbeddings e],
             rbind (embedding_load e)
               (fun '(vocab, m) => Ok (vocab, Some m)))).
  { unfold initialize. rewrite He. destruct (vocabulary args); reflexivity. }
  split; [|split].
  - unfold main. rewrite Hinit. unfold initialize. simpl. rewrite He. reflexivity.
  - rewrite Hinit. reflexivity.
  - intros vocab m Hload. rewrite Hload in Hinit. simpl in Hinit.
    split; [exact Hinit|].
    unfold main. rewrite Hinit.
    destruct (train vocab (Some m) (columns m) (epochs args) (batch_size args));
      [destruct (export_path args)|]; simpl; auto 10.
Qed.

(** *** Further behaviour of the program *)

Lemma initialize_log (args : Args) (ev : event) :
  In ev (initialize args).1 ->
  match ev with
  | Train _ _ _ | Export _ => False
  | _ => True
  end.
Proof.
  unfold initialize.
  destruct (vocabulary args), (initial_embeddings args); simpl;
    intros [<-|[<-|[]]]; exact I.
Qed.



(** The embedding is exported only when an export path is given and only
    after a training that returned; the program then ends as the export
    does. *)
Theorem main_export_after_training (args : Args) (path : string) :
  In (Export path) (main args).1 ->
  export_path args = Some path /\
  exists vocab m size,
    In (Train vocab m size) (main args).1 /\
    train vocab m size (epochs args) (batch_size args) = Ok tt /\
    (main args).2 = export vocab path.
Proof.
  unfold main.
  destruct (initialize args) as [log [[vocab0 m0]|e]] eqn:Hinit.
  - assert (Hlog : forall ev, In ev log ->
              match ev with Train _ _ _ | Export _ => False | _ => True end).
    { intros ev Hev. apply (initialize_log args). rewrite Hinit. exact Hev. }
    set (size0 := match m0 with Some m1 => columns m1 | None => embedding_size args end).
    destruct (train vocab0 m0 size0 (epochs args) (batch_size args)) as [[]|e] eqn:Ht.
    + destruct (export_path args) as [path0|]; simpl.
      * intros Hin. apply in_app_or in Hin. destruct Hin as [Hin|[Hin|[]]].
        -- apply in_app_or in Hin. destruct Hin as [Hin|[Hin|[]]];
             [destruct (Hlog _ Hin)|discriminate].
        -- injection Hin as ->. split; [reflexivity|].
           exists vocab0, m0, size0. split; [|split; [exact Ht|reflexivity]].
           apply in_or_app. left. apply in_or_app. right. left. reflexivity.
      * intros Hin. apply in_app_or in Hin. destruct Hin as [Hin|[Hin|[]]];
          [destruct (Hlog _ Hin)|discriminate].
    + simpl. intros Hin. apply in_app_or in Hin. destruct Hin as [Hin|[Hin|[]]];
        [destruct (Hlog _ Hin)|discriminate].
  - simpl. intros Hin. exfalso.
    pose proof (initialize_log args (Export path)) as H.
    rewrite Hinit in H. exact (H Hin).
Qed.

End Program.

(** *** A run with both paths given *)

Definition both_paths : Args :=
  {| data := "tweets.csv";
     vocabulary := Some "vocab.txt";
     batch_size := 32;
     epochs := 10;
     embedding_size := 25;
     initial_embeddings := Some "embeddings.csv";
     export_path := None |}.

(** Collaborators that find their files: the embedding file holds the
    words of a 2 x 3 matrix, the vocabulary file other words. *)
Definition file_embedding (_ : string) : result (list string * list (list Z)) :=
  Ok (["good"; "bad"], [[1; 2; 3]; [4; 5; 6]]).

Definition file_vocab (_ : string) : result (list string) :=
  Ok ["other"; "words"].

Definition built_vocab (_ : string) (_ : nat) : result (list string) :=
  Ok ["built"].

Definition width (m : list (list Z)) : nat :=
  match m with
  | [] => 0
  | row :: _ => length row
  end.

Definition train_ok (_ : list string) (_ : option (list (list Z))) (_ : nat)
    (_ _ : Z) : result unit := Ok tt.

Definition export_ok (_ : list string) (_ : string) : result unit := Ok tt.

(** Both paths given: nothing is rejected, the embedding file is loaded
    and the training is started on its vocabulary. *)
Lemma both_paths_run :
  main (list string) (list (list Z)) width built_vocab file_embedding
       file_vocab train_ok export_ok both_paths =
  ([Print _ _ "Loading embeddings from file...";
    LoadEmbeddings _ _ "embeddings.csv";
    Train _ _ ["good"; "bad"] (Some [[1; 2; 3]; [4; 5; 6]]) 3],
   Ok tt).
Proof. reflexivity. Qed.

Lemma main_ignores_vocabulary_witness :
  main (list string) (list (list Z)) width built_vocab file_embedding
       file_vocab train_ok export_ok both_paths =
  main (list string) (list (list Z)) width built_vocab file_embedding
       file_vocab train_ok export_ok (set_vocabulary None both_paths).
Proof.
  exact (proj1 (main_ignores_vocabulary (list string) (list (list Z)) width
                  built_vocab file_embedding file_vocab train_ok export_ok
                  both_paths "embeddings.csv" eq_refl)).
Defined.

Definition exporting : Args :=
  {| data := "tweets.csv";
     vocabulary := None;
     batch_size := 32;
     epochs := 10;
     embedding_size := 25;
     initial_embeddings := Some "embeddings.csv";
     export_path := Some "trained.csv" |}.


Lemma main_export_after_training_witness :
  Some "trained.csv" = Some "trained.csv" /\
  exists vocab m size,
    In (Train _ _ vocab m size)
       (main (list string) (list (list Z)) width built_vocab file_embedding
          file_vocab train_ok export_ok exporting).1 /\
    train_ok vocab m size 10 32 = Ok tt /\
    (main (list string) (list (list Z)) width built_vocab file_embedding
       file_vocab train_ok export_ok exporting).2 = export_ok vocab "trained.csv".
Proof.
  refine (main_export_after_training (list string) (list (list Z)) width
            built_vocab file_embedding file_vocab train_ok export_ok exporting
            "trained.csv" _).
  vm_compute. right. right. right. left. reflexivity.
Defined.

End Main.
